(** * BlockOasis: escrow-backed claims arbitration

    A shallow embedding of the Python back end (the in-memory databases
    [bank_db], [claims_db], [users_db] and the rollup routes that drive
    them) together with the properties of the natural-language
    specification that can be settled on it.

    Conventions of the embedding.
    - Python [int] is [Z]; [str] is [string]; [Optional[str]] is
      [option string] with [None] for Python's [None].
    - A Python [dict] whose iteration order is never observed is a [gmap];
      [claims_db.claims], which [get_claim_by_prep_CID] iterates, is an
      insertion-ordered association list.
    - The keys of [User.open_claims] and [User.open_disputes] are what the
      routes put there: [str(new_claim_id)] in the claim route and the
      integer [payload.claimID] everywhere else.  Python keeps [1] and
      ["1"] apart as dictionary keys, and so does [pykey].
    - Every method runs in a state-and-exception monad: a raised exception
      keeps all mutations made before it, as in Python.
    - [int(time.time())] is an input of the handler that reads it ([now]);
      [data.metadata.timestamp] is the trigger's own time stamp.
    - The routes read a claim's preparation CID and last update under the
      names [prep_CID] and [last_edited], the claim input's proof under
      [comp_proof] and the sender of a validation under [metadata.sender];
      the records declare [prepCID], [lastUpdated], [computation_proof] and
      [msg_sender].  A read of an attribute its class does not declare
      raises [AttributeError], and so does each of these four.
    - [calculate_endpoint_usage] is embedded down to its calls of pandas and
      hashlib: [read_csv], [to_csv] and the SHA-256 digest are the fields of
      a [Library], the filter, the grouping and the per-group sums over
      binary64 numbers are written out.
    - [Claim.timestamp_of_claim] is declared [str] and receives the
      trigger's integer time stamp; the embedding keeps the integer.
    - The state is that of the Python process.  What the rollup framework
      does with a handler that raised or answered [False] is not part of
      the embedding. *)

From stdpp Require Import gmap strings list fin_maps pretty sorting.
From Stdlib Require Import ZArith Lia Ascii PrimFloat.

Local Open Scope Z_scope.

(** ** Python values shared by the modules *)

(** Keys of the open-item dictionaries: an [int] or a [str]. *)
Inductive pykey :=
| KInt (n : Z)
| KStr (s : string).

#[global] Instance pykey_eq_dec : EqDecision pykey.
Proof. solve_decision. Defined.

Definition pykey_to_sum (k : pykey) : Z + string :=
  match k with KInt n => inl n | KStr s => inr s end.

Definition pykey_of_sum (k : Z + string) : pykey :=
  match k with inl n => KInt n | inr s => KStr s end.

#[global] Instance pykey_countable : Countable pykey.
Proof.
  apply (inj_countable' pykey_to_sum pykey_of_sum).
  intros []; reflexivity.
Defined.

(** [str(n)] for an integer [n]. *)
Definition str (n : Z) : string := pretty n.

(** [s.lower()] on the ASCII letters (addresses are hexadecimal text). *)
Definition lower_ascii (c : ascii) : ascii :=
  let n := N_of_ascii c in
  if (65 <=? n)%N && (n <=? 90)%N then ascii_of_N (n + 32) else c.

Fixpoint lower (s : string) : string :=
  match s with
  | EmptyString => EmptyString
  | String c s' => String (lower_ascii c) (lower s')
  end.

(** The texts of the reports and exceptions of the source, with the values
    their f-strings interpolate. *)
Inductive message :=
| invalid_amount
| insufficient_funds
| Insufficient_funds_for_staking
| Staking_Amount_is_not_equal
| No_claim_found (claim_id : Z)
| prep_CID_does_not_match (claim_id : Z)
| status_not_eligible_for_dispute (claim_id : Z)
| Cannot_dispute_own_claim
| Insufficient_funds_for_staking_in_wallet
| Failed_to_initiate_dispute
| Dispute_initiated (claim_id : Z) (by_user : string)
| Collateral_amount_should_be_equal
| Claim_already_exists
| Insufficient_funds_for_collateral
| Failed_to_lock_collateral (cause : message)
| Claim_created (claim_id : Z)
| Not_enough_parameters
| Claim_doesnt_exist
| Claim_cant_be_finalized_yet (seconds_to_accept : Z)
| Can_only_finalize_Open_or_Disputing
| Claim_finalized (claim_id : Z)
| Can_only_validate_Open_and_Disputing
| Can_only_validate_own_claims
| Claim_validated (claim_id : Z)
| Claim_contradicted (claim_id : Z)
| Could_not_withdraw (amount : Z) (cause : message)
| Could_not_deposit (amount : Z) (cause : message)
| action_withdraw (user : string) (new_balance : Z)
| action_deposit (user : string) (new_balance : Z)
| Nothing_to_do_here
| no_text.

(** Python exceptions the code can raise. *)
Inductive exn :=
| Exception (m : message)
| ValueError (m : message)
| KeyError (k : pykey)
| AttributeError
| TypeError.

Inductive outcome (A : Type) :=
| Ok (a : A)
| Raise (e : exn).
Arguments Ok {A} a.
Arguments Raise {A} e.

(** ** State and exceptions *)

Definition M (S A : Type) : Type := S -> S * outcome A.

#[global] Instance M_ret {S} : MRet (M S) := fun A a s => (s, Ok a).

#[global] Instance M_bind {S} : MBind (M S) := fun A B k c s =>
  match c s with
  | (s', Ok a) => k a s'
  | (s', Raise e) => (s', Raise e)
  end.

Definition raise {S A} (e : exn) : M S A := fun s => (s, Raise e).

(** [try: c except Exception as e: h e] *)
Definition try_except {S A} (c : M S A) (h : exn -> M S A) : M S A :=
  fun s =>
    match c s with
    | (s', Ok a) => (s', Ok a)
    | (s', Raise e) => h e s'
    end.

(** [try: c except Exception as e: h e] followed by the rest of the
    function, [k], which runs only when [c] raised nothing ([h] returns). *)
Definition try_except_then {S A B} (c : M S A) (h : exn -> M S B) (k : A -> M S B)
  : M S B :=
  fun s =>
    match c s with
    | (s', Ok a) => k a s'
    | (s', Raise e) => h e s'
    end.

(** [f"{e}"] for the exceptions that carry a text. *)
Definition text_of (e : exn) : message :=
  match e with
  | Exception m | ValueError m => m
  | _ => no_text
  end.

Definition modify {S} (f : S -> S) : M S unit := fun s => (f s, Ok tt).

(** The result of a call that touches no state. *)
Definition of_outcome {S A} (r : outcome A) : M S A := fun s => (s, r).

(** Run a method of a component inside a larger state. *)
Definition zoom {S T A} (proj : S -> T) (upd : T -> S -> S) (c : M T A) : M S A :=
  fun s => let '(t, r) := c (proj s) in (upd t s, r).

(** ** model/bank_db.py *)

Record Wallet := mkWallet { owner : string; balance : Z }.

Record BankDatabase := mkBank { wallets : gmap string Wallet }.

Module bank_db.

(** The wallet object is handed out with the key of the slot it lives
    in, so that an assignment to [wallet.balance] reaches the dictionary. *)
Definition _get_wallet (address : option string)
  : M BankDatabase (string * Wallet) :=
  match address with
  | None => raise AttributeError
  | Some a =>
      fun db =>
        let addr := lower a in
        match wallets db !! addr with
        | Some wallet => (db, Ok (addr, wallet))
        | None =>
            let new_wallet := mkWallet addr 0 in
            (mkBank (<[addr := new_wallet]> (wallets db)), Ok (addr, new_wallet))
        end
  end.

(** [wallet.balance = v] *)
Definition set_balance (slot : string * Wallet) (v : Z) : M BankDatabase unit :=
  modify (fun db =>
    mkBank (<[slot.1 := mkWallet (owner slot.2) v]> (wallets db))).

Definition deposit (address : option string) (amount : Z) : M BankDatabase unit :=
  if amount <=? 0 then raise (Exception invalid_amount)
  else
    wallet ← _get_wallet address;
    set_balance wallet (balance wallet.2 + amount).

Definition withdraw (address : option string) (amount : Z) : M BankDatabase unit :=
  if amount <=? 0 then raise (Exception invalid_amount)
  else
    wallet ← _get_wallet address;
    if balance wallet.2 <? amount then raise (Exception insufficient_funds)
    else set_balance wallet (balance wallet.2 - amount).

Definition transfer (sender receiver : option string) (amount : Z)
  : M BankDatabase unit :=
  if amount <=? 0 then raise (Exception invalid_amount)
  else
    withdraw sender amount;;
    deposit receiver amount.

Definition balance (address : option string) : M BankDatabase Z :=
  wallet ← _get_wallet address;
  mret (balance wallet.2).

End bank_db.

(** The balance an address is seen to hold: what [bank_db.balance] would
    answer, without creating the wallet. *)
Definition balance_of (db : BankDatabase) (address : string) : Z :=
  match wallets db !! lower address with
  | Some wallet => balance wallet
  | None => 0
  end.

(** ** model/model.py *)

Inductive Status :=
| UNDEFINED | OPEN | DISPUTING | FINALIZED | DISPUTED | VALIDATED | CONTRADICTED.

#[global] Instance Status_eq_dec : EqDecision Status.
Proof. solve_decision. Defined.

Record User := mkUser {
  open_claims : gset pykey;
  open_disputes : gset pykey;
  total_disputes : Z;
  won_disputes : Z;
  total_claims : Z;
  correct_claims : Z
}.

Record Claim := mkClaim {
  user_address : string;
  disputing_user_address : option string;
  timestamp_of_claim : Z;
  status : Status;
  collateral : Z;
  compProof : string;
  compCID : string;
  prepCID : string;
  lastUpdated : Z
}.

(** Assignments to one attribute of an object. *)
Definition set_open_claims (v : gset pykey) (u : User) : User :=
  mkUser v (open_disputes u) (total_disputes u) (won_disputes u)
         (total_claims u) (correct_claims u).
Definition set_open_disputes (v : gset pykey) (u : User) : User :=
  mkUser (open_claims u) v (total_disputes u) (won_disputes u)
         (total_claims u) (correct_claims u).
Definition set_total_disputes (v : Z) (u : User) : User :=
  mkUser (open_claims u) (open_disputes u) v (won_disputes u)
         (total_claims u) (correct_claims u).
Definition set_won_disputes (v : Z) (u : User) : User :=
  mkUser (open_claims u) (open_disputes u) (total_disputes u) v
         (total_claims u) (correct_claims u).
Definition set_total_claims (v : Z) (u : User) : User :=
  mkUser (open_claims u) (open_disputes u) (total_disputes u) (won_disputes u)
         v (correct_claims u).
Definition set_correct_claims (v : Z) (u : User) : User :=
  mkUser (open_claims u) (open_disputes u) (total_disputes u) (won_disputes u)
         (total_claims u) v.

Definition set_disputing_user_address (v : option string) (c : Claim) : Claim :=
  mkClaim (user_address c) v (timestamp_of_claim c) (status c) (collateral c)
          (compProof c) (compCID c) (prepCID c) (lastUpdated c).
Definition set_status (v : Status) (c : Claim) : Claim :=
  mkClaim (user_address c) (disputing_user_address c) (timestamp_of_claim c) v
          (collateral c) (compProof c) (compCID c) (prepCID c) (lastUpdated c).
Definition set_lastUpdated (v : Z) (c : Claim) : Claim :=
  mkClaim (user_address c) (disputing_user_address c) (timestamp_of_claim c)
          (status c) (collateral c) (compProof c) (compCID c) (prepCID c) v.

(** ** Insertion-ordered dictionaries *)

Section PyDict.
Context {K V : Type} `{EqDecision K}.

(** [d.get(k)] *)
Fixpoint dict_get (d : list (K * V)) (k : K) : option V :=
  match d with
  | [] => None
  | (k', v) :: d' => if decide (k' = k) then Some v else dict_get d' k
  end.

(** [d[k] = v]: an existing key keeps its place, a new one goes last. *)
Fixpoint dict_set (d : list (K * V)) (k : K) (v : V) : list (K * V) :=
  match d with
  | [] => [(k, v)]
  | (k', v') :: d' =>
      if decide (k' = k) then (k, v) :: d' else (k', v') :: dict_set d' k v
  end.

(** [d.values()] *)
Definition dict_values (d : list (K * V)) : list V := map snd d.
End PyDict.

(** ** model/user_db.py *)

Record UsersDatabase := mkUsers { users : gmap string User }.

(** A keyword argument of [update_user]. *)
Inductive kwarg :=
| kw_open_claims (v : gset pykey)
| kw_open_disputes (v : gset pykey)
| kw_total_disputes (v : Z)
| kw_won_disputes (v : Z)
| kw_total_claims (v : Z)
| kw_correct_claims (v : Z).

Definition setattr (kw : kwarg) : User -> User :=
  match kw with
  | kw_open_claims v => set_open_claims v
  | kw_open_disputes v => set_open_disputes v
  | kw_total_disputes v => set_total_disputes v
  | kw_won_disputes v => set_won_disputes v
  | kw_total_claims v => set_total_claims v
  | kw_correct_claims v => set_correct_claims v
  end.

Module users_db.

(** [self.users.get(user_id)]; the id may be [None], which is no key. *)
Definition get_user (user_id : option string) : M UsersDatabase (option User) :=
  fun db => (db, Ok (user_id ≫= fun k => users db !! k)).

(** An in-place change of the user object stored under [user_id]. *)
Definition mutate (user_id : string) (f : User -> User) : M UsersDatabase unit :=
  modify (fun db => mkUsers (alter f user_id (users db))).

Definition create_user (user_id : string) : M UsersDatabase User :=
  let new_user := mkUser ∅ ∅ 0 0 0 0 in
  modify (fun db => mkUsers (<[user_id := new_user]> (users db)));;
  mret new_user.

Definition update_user (user_id : option string) (kwargs : list kwarg)
  : M UsersDatabase (option User) :=
  user ← get_user user_id;
  match user_id, user with
  | Some uid, Some _ =>
      mutate uid (fun u => foldl (fun u kw => setattr kw u) u kwargs);;
      get_user user_id
  | _, _ => mret None
  end.

(** [del user.open_claims[claimID]] *)
Definition del_open_claims (user_id : string) (user : User) (claimID : pykey)
  : M UsersDatabase unit :=
  if decide (claimID ∈ open_claims user)
  then mutate user_id (fun u => set_open_claims (open_claims u ∖ {[claimID]}) u)
  else raise (KeyError claimID).

Definition won_claim (user_id : option string) (claimID : pykey)
  : M UsersDatabase (option User) :=
  user ← get_user user_id;
  match user_id, user with
  | Some uid, Some user =>
      mutate uid (fun u => set_total_claims (total_claims u + 1) u);;
      mutate uid (fun u => set_correct_claims (correct_claims u + 1) u);;
      del_open_claims uid user claimID;;
      get_user user_id
  | _, _ => mret None
  end.

Definition lost_claim (user_id : option string) (claimID : pykey)
  : M UsersDatabase (option User) :=
  user ← get_user user_id;
  match user_id, user with
  | Some uid, Some user =>
      mutate uid (fun u => set_total_claims (total_claims u + 1) u);;
      del_open_claims uid user claimID;;
      get_user user_id
  | _, _ => mret None
  end.

End users_db.

(** ** model/claims_db.py *)

Record ClaimsDatabase := mkClaims {
  claims : list (Z * Claim);
  next_claim_id : Z
}.

Module claims_db.

(** An in-place change of the claim object stored under [claim_id]. *)
Definition mutate (claim_id : Z) (f : Claim -> Claim) : M ClaimsDatabase unit :=
  modify (fun db =>
    match dict_get (claims db) claim_id with
    | Some claim => mkClaims (dict_set (claims db) claim_id (f claim)) (next_claim_id db)
    | None => db
    end).

Definition get_claim (claim_id : Z) : M ClaimsDatabase (option Claim) :=
  fun db => (db, Ok (dict_get (claims db) claim_id)).

Definition get_next_claim_id : M ClaimsDatabase Z :=
  fun db => (db, Ok (next_claim_id db)).

(** [now] is [int(time.time())]. *)
Definition create_claim (now : Z) (prep_CID user_address : string)
    (timestamp_of_claim : Z) (comp_proof comp_CID : string) (value : Z)
  : M ClaimsDatabase Claim :=
  fun db =>
    let claim_id := next_claim_id db in
    let new_claim :=
      mkClaim user_address None timestamp_of_claim OPEN value
              comp_proof comp_CID prep_CID now in
    (mkClaims (dict_set (claims db) claim_id new_claim) (claim_id + 1),
     Ok new_claim).

Definition initiate_dispute (now : Z) (claim_id : Z)
    (disputing_user_address : string) : M ClaimsDatabase (option Claim) :=
  claim ← get_claim claim_id;
  match claim with
  | Some _ =>
      mutate claim_id (set_disputing_user_address (Some disputing_user_address));;
      mutate claim_id (set_status DISPUTING);;
      mutate claim_id (set_lastUpdated now);;
      get_claim claim_id
  | None => mret None
  end.

Definition finalize_claim (now : Z) (claim_id : Z) (final_status : Status)
  : M ClaimsDatabase (option Claim) :=
  claim ← get_claim claim_id;
  match claim with
  | Some _ =>
      mutate claim_id (set_status final_status);;
      mutate claim_id (set_lastUpdated now);;
      get_claim claim_id
  | None => mret None
  end.

Definition validate_or_contradict_claim (now : Z) (claim_id : Z)
    (claim_status : Status) : M ClaimsDatabase (option Claim) :=
  claim ← get_claim claim_id;
  match claim with
  | Some _ =>
      mutate claim_id (set_status claim_status);;
      mutate claim_id (set_lastUpdated now);;
      get_claim claim_id
  | None => mret None
  end.

(** The first claim, in insertion order, with this preparation CID. *)
Definition get_claim_by_prep_CID (prep_CID : string)
  : M ClaimsDatabase (option Claim) :=
  fun db =>
    (db, Ok (List.find (fun claim => bool_decide (prepCID claim = prep_CID))
                       (dict_values (claims db)))).

Definition get_all_claims : M ClaimsDatabase (list Claim) :=
  fun db => (db, Ok (dict_values (claims db))).

End claims_db.

(** ** helpers/setting.py *)

Module settings.
Definition PORTAL_ERC20_ADDRESS : string := "0x9C21AEb2093C32DDbC53eEF24B873BDCd1aDa1DB".
Definition TOKEN_ERC20_ADDRESS : string := "0xc6e7DF5E7b4f2A278906862b61205850344D4e7d".
Definition LOCKED_ASSET_ADDRESS : string := "0x0000000000000000000000000000000000000001".
Definition COLLATERAL_AMOUNT : Z := 1000000000000000000.
Definition CLAIM_EPOCH : Z := 30.
Definition DISPUTE_EPOCH : Z := 60.
Definition VALIDATOR_STAKING : Z := 4 * 1000000000000000000.
(** [int(0.0005 * 1000000000000000000)]: the binary64 product is exactly
    500000000000000.0. *)
Definition CLAIM_INCENTIVE : Z := 500000000000000.
End settings.

(** ** helpers/inputs.py and the trigger's metadata *)

Record ClaimInput := mkClaimInput {
  ci_prep_CID : string;
  ci_comp_CID : string;
  ci_collateral : Z;
  ci_computation_proof : string
}.

Record WithdrawInput := mkWithdrawInput { wi_amount : Z }.

Record FinalizeInput := mkFinalizeInput {
  fi_claimID : Z;
  fi_prep_CID : string
}.

Record ValidateInput := mkValidateInput {
  vi_claimID : Z;
  vi_preprocessed_data : string;
  vi_computation_proof : string
}.

Record DisputeInput := mkDisputeInput {
  di_claimID : Z;
  di_staking_amount : Z;
  di_prep_CID : string
}.

Record Metadata := mkMetadata {
  msg_sender : string;
  timestamp : Z
}.

(** Four attributes the routes read and no class declares.  [Claim] has
    [prepCID] and [lastUpdated], [ClaimInput] has [computation_proof], the
    metadata has [msg_sender]; reading any other name of a pydantic model
    raises [AttributeError]. *)
Definition prep_CID {S} (claim : Claim) : M S string := raise AttributeError.
Definition last_edited {S} (claim : Claim) : M S Z := raise AttributeError.
Definition comp_proof {S} (payload : ClaimInput) : M S string := raise AttributeError.
Definition sender {S} (data_metadata : Metadata) : M S string := raise AttributeError.

(** What [decode_erc20_deposit] hands to the deposit route. *)
Record Erc20Deposit := mkErc20Deposit {
  depositor : string;
  token_address : string;
  amount : Z
}.

(** ** helpers/utils.py *)

Module utils.

(** ["0123456789abcdef"[n]] *)
Definition hex_digit (n : N) : ascii :=
  if (n <? 10)%N then ascii_of_N (48 + n) else ascii_of_N (87 + n).

(** [bytes.hex()] *)
Fixpoint hex (binary : list Byte.byte) : string :=
  match binary with
  | [] => EmptyString
  | b :: rest =>
      let n := Byte.to_N b in
      String (hex_digit (n / 16)) (String (hex_digit (n mod 16)) (hex rest))
  end.

(** The value of a hexadecimal digit, of either case. *)
Definition digit_value (c : ascii) : option N :=
  let n := N_of_ascii c in
  if (48 <=? n)%N && (n <=? 57)%N then Some (n - 48)%N
  else if (97 <=? n)%N && (n <=? 102)%N then Some (n - 87)%N
  else if (65 <=? n)%N && (n <=? 70)%N then Some (n - 55)%N
  else None.

(** ASCII white space: space, [\t], [\n], [\v], [\f], [\r]. *)
Definition is_space (c : ascii) : bool :=
  let n := N_of_ascii c in
  (n =? 32)%N || ((9 <=? n)%N && (n <=? 13)%N).

(** [bytes.fromhex(s)]: white space is skipped between the pairs of
    digits; anything else that is no pair of digits is a [ValueError]. *)
Fixpoint fromhex (s : string) : outcome (list Byte.byte) :=
  match s with
  | EmptyString => Ok []
  | String c s' =>
      if is_space c then fromhex s'
      else
        match digit_value c, s' with
        | Some top, String c' s'' =>
            match digit_value c' with
            | Some bot =>
                match fromhex s'' with
                | Ok rest => Ok (byte_of_ascii (ascii_of_N (16 * top + bot)) :: rest)
                | Raise e => Raise e
                end
            | None => Raise (ValueError no_text)
            end
        | _, _ => Raise (ValueError no_text)
        end
  end.

(** [string.encode("utf-8")]: a text is held as its UTF-8 bytes. *)
Fixpoint encode (s : string) : list Byte.byte :=
  match s with
  | EmptyString => []
  | String c s' => byte_of_ascii c :: encode s'
  end.

(** [s[2:]] *)
Definition drop2 (s : string) : string :=
  match s with
  | String _ (String _ s') => s'
  | _ => EmptyString
  end.

(** [binary[i:j]] for [0 <= i <= j]; a slice past the end is cut short. *)
Definition slice {A} (i j : nat) (l : list A) : list A := take (j - i) (drop i l).

(** [int.from_bytes(binary, "big")] *)
Definition from_bytes (binary : list Byte.byte) : Z :=
  fold_left (fun acc b => 256 * acc + Z.of_N (Byte.to_N b)) binary 0.

Definition str2hex (s : string) : string := "0x" +:+ hex (encode s).

Definition hex2bin (hexstr : string) : outcome (list Byte.byte) := fromhex (drop2 hexstr).

Definition bin2hex (binary : list Byte.byte) : string := "0x" +:+ hex binary.

(** The dictionary that [decode_erc20_deposit] returns: the fields the
    deposit route reads, and the rest of the payload. *)
Definition decode_erc20_deposit (binary : list Byte.byte) : Erc20Deposit * list Byte.byte :=
  let token_address := slice 1 21 binary in
  let depositor := slice 21 41 binary in
  let amount := from_bytes (slice 41 73 binary) in
  let data := drop 73 binary in
  (mkErc20Deposit (bin2hex depositor) (bin2hex token_address) amount, data).

End utils.

(** ** The rollup context and the process state *)

Inductive output :=
| report (m : message)
| notice (m : message)
| voucher (destination receiver : string) (amount : Z).

Record World := mkWorld {
  bank : BankDatabase;
  claimsdb : ClaimsDatabase;
  usersdb : UsersDatabase;
  outputs : list output
}.

Definition in_bank {A} : M BankDatabase A -> M World A :=
  zoom bank (fun b w => mkWorld b (claimsdb w) (usersdb w) (outputs w)).
Definition in_claims {A} : M ClaimsDatabase A -> M World A :=
  zoom claimsdb (fun c w => mkWorld (bank w) c (usersdb w) (outputs w)).
Definition in_users {A} : M UsersDatabase A -> M World A :=
  zoom usersdb (fun u w => mkWorld (bank w) (claimsdb w) u (outputs w)).

Definition emit (o : output) : M World unit :=
  modify (fun w => mkWorld (bank w) (claimsdb w) (usersdb w) (outputs w ++ [o])).

(** A helper's answer: the pair [(valid, message)] or a lone [bool]. *)
Inductive answer :=
| Pair (valid : bool) (msg : message)
| Lone (b : bool).

(** [valid, message = r] *)
Definition unpack {S} (r : answer) : M S (bool * message) :=
  match r with
  | Pair valid msg => mret (valid, msg)
  | Lone _ => raise TypeError
  end.

(** ** routes/register_deposite_route.py *)

Module register_deposit.

Definition process_deposit_and_add_user (erc20_deposit : Erc20Deposit)
  : M World bool :=
  let token_address := token_address erc20_deposit in
  let depositor := depositor erc20_deposit in
  let amount := amount erc20_deposit in
  if negb (bool_decide (lower token_address = lower settings.TOKEN_ERC20_ADDRESS))
  then
    emit (voucher token_address depositor amount);;
    mret true
  else
    user ← in_users (users_db.get_user (Some depositor));
    (if user is None
     then in_users (users_db.create_user depositor);; mret tt
     else mret tt);;
    try_except_then
      (in_bank (bank_db.deposit (Some depositor) amount))
      (fun e =>
         emit (report (Could_not_deposit amount (text_of e)));;
         mret false)
      (fun _ =>
         b ← in_bank (bank_db.balance (Some depositor));
         emit (notice (action_deposit depositor b));;
         mret true).

Definition default_handler (data_metadata : Metadata) (erc20_deposit : Erc20Deposit)
  : M World bool :=
  if bool_decide (lower (msg_sender data_metadata) = lower settings.PORTAL_ERC20_ADDRESS)
  then process_deposit_and_add_user erc20_deposit
  else
    emit (report Nothing_to_do_here);;
    mret false.

End register_deposit.

(** ** routes/withdraw_route.py *)

Module withdraw.

Definition withdraw (data_metadata : Metadata) (payload : WithdrawInput)
  : M World bool :=
  let user := msg_sender data_metadata in
  let amount := wi_amount payload in
  try_except_then
    (in_bank (bank_db.withdraw (Some user) amount))
    (fun e =>
       emit (report (Could_not_withdraw amount (text_of e)));;
       mret false)
    (fun _ =>
       emit (voucher settings.TOKEN_ERC20_ADDRESS user amount);;
       b ← in_bank (bank_db.balance (Some user));
       emit (notice (action_withdraw user b));;
       mret true).

End withdraw.

(** ** routes/generate_claim_route.py *)

Module generate_claim.

Definition validate_collateral (collateral : Z) : answer :=
  if negb (bool_decide (collateral = settings.COLLATERAL_AMOUNT))
  then Pair false Collateral_amount_should_be_equal
  else Pair true no_text.

Definition check_existing_claim (prep_CID : string) : M World answer :=
  found ← in_claims (claims_db.get_claim_by_prep_CID prep_CID);
  if found is Some _ then mret (Pair false Claim_already_exists)
  else mret (Pair true no_text).

Definition check_and_lock_funds (user_wallet_address : string) : M World answer :=
  b ← in_bank (bank_db.balance (Some user_wallet_address));
  if b <? settings.COLLATERAL_AMOUNT
  then
    in_bank (bank_db.balance (Some user_wallet_address));;
    mret (Pair false Insufficient_funds_for_collateral)
  else
    try_except
      (in_bank (bank_db.transfer (Some user_wallet_address)
                  (Some settings.LOCKED_ASSET_ADDRESS) settings.COLLATERAL_AMOUNT);;
       mret (Pair true no_text))
      (fun e => mret (Pair false (Failed_to_lock_collateral (text_of e)))).

Definition create_and_register_claim (now : Z) (prep_CID user_address : string)
    (timestamp : Z) (comp_proof comp_CID : string) (value : Z)
  : M World (Z * Claim) :=
  new_claim_id ← in_claims claims_db.get_next_claim_id;
  new_claim ← in_claims (claims_db.create_claim now prep_CID user_address
                           timestamp comp_proof comp_CID value);
  mret (new_claim_id, new_claim).

Definition update_user_open_claims (user_wallet_address : string) (new_claim_id : Z)
  : M World unit :=
  user ← in_users (users_db.get_user (Some user_wallet_address));
  match user with
  | Some user =>
      in_users (users_db.mutate user_wallet_address
        (fun u => set_open_claims ({[KStr (str new_claim_id)]} ∪ open_claims u) u));;
      user' ← in_users (users_db.get_user (Some user_wallet_address));
      in_users (users_db.update_user (Some user_wallet_address)
        [kw_open_claims (from_option open_claims ∅ user')]);;
      mret tt
  | None => mret tt
  end.

(** The arguments of step 4 are evaluated from left to right, so that
    [payload.comp_proof] raises once the collateral is locked and before
    [create_and_register_claim] is entered. *)
Definition handle_claim (now : Z) (data_metadata : Metadata) (payload : ClaimInput)
  : M World bool :=
  '(valid, message) ← unpack (validate_collateral (ci_collateral payload));
  if negb valid then emit (report message);; mret false else
  r ← check_existing_claim (ci_prep_CID payload);
  '(valid, message) ← unpack r;
  if negb valid then emit (report message);; mret false else
  r ← check_and_lock_funds (msg_sender data_metadata);
  '(valid, message) ← unpack r;
  if negb valid then emit (report message);; mret false else
  payload_comp_proof ← comp_proof payload;
  '(new_claim_id, new_claim) ←
    create_and_register_claim now (ci_prep_CID payload) (msg_sender data_metadata)
      (timestamp data_metadata) payload_comp_proof
      (ci_comp_CID payload) (ci_collateral payload);
  update_user_open_claims (msg_sender data_metadata) new_claim_id;;
  emit (notice (Claim_created new_claim_id));;
  mret true.

End generate_claim.

(** ** routes/generate_dispute_route.py *)

Module generate_dispute.

Definition check_validator_stake (address : string) (staking_amount : Z)
  : M World answer :=
  current_balance ← in_bank (bank_db.balance (Some address));
  if current_balance <? settings.VALIDATOR_STAKING
  then mret (Pair false Insufficient_funds_for_staking)
  else if negb (bool_decide (staking_amount = settings.VALIDATOR_STAKING))
  then mret (Pair false Staking_Amount_is_not_equal)
  else mret (Pair true no_text).

(** The [except] clause of each helper but the last logs the exception
    and raises it again; the embedding lets it pass. *)
Definition check_claim_exists_and_verify_CID (claim_id : Z) (expected_prep_CID : string)
  : M World answer :=
  claim ← in_claims (claims_db.get_claim claim_id);
  match claim with
  | None => mret (Pair false (No_claim_found claim_id))
  | Some claim =>
      claim_prep_CID ← prep_CID claim;
      if negb (bool_decide (claim_prep_CID = expected_prep_CID))
      then
        prep_CID claim;;
        mret (Pair false (prep_CID_does_not_match claim_id))
      else mret (Pair true no_text)
  end.

Definition check_claim_eligible_for_dispute (claim_id : Z)
    (disputing_party_address : string) : M World answer :=
  claim ← in_claims (claims_db.get_claim claim_id);
  match claim with
  | None => raise AttributeError
  | Some claim =>
      if negb (bool_decide (status claim = OPEN))
      then mret (Pair false (status_not_eligible_for_dispute claim_id))
      else if bool_decide (user_address claim = disputing_party_address)
      then mret (Pair false Cannot_dispute_own_claim)
      else mret (Lone true)
  end.

Definition transfer_stake_to_locked_account (user_wallet_address : string)
    (stake_amount : Z) : M World answer :=
  try_except
    (b ← in_bank (bank_db.balance (Some user_wallet_address));
     if b <? stake_amount
     then
       in_bank (bank_db.balance (Some user_wallet_address));;
       mret (Pair false Insufficient_funds_for_staking_in_wallet)
     else
       in_bank (bank_db.transfer (Some user_wallet_address)
                  (Some settings.LOCKED_ASSET_ADDRESS) stake_amount);;
       mret (Pair true no_text))
    (fun _ => mret (Lone false)).

Definition handle_dispute (now : Z) (data_metadata : Metadata) (payload : DisputeInput)
  : M World bool :=
  let disputing_party_address := msg_sender data_metadata in
  (* 1. Check Validator Stake *)
  r ← check_validator_stake disputing_party_address (di_staking_amount payload);
  '(valid, message) ← unpack r;
  if negb valid then emit (report message);; mret false else
  (* 2. Check Claim Exists and Verify CID *)
  r ← check_claim_exists_and_verify_CID (di_claimID payload) (di_prep_CID payload);
  '(valid, message) ← unpack r;
  if negb valid then emit (report message);; mret false else
  (* 3. Check Claim Eligibility for Dispute *)
  r ← check_claim_eligible_for_dispute (di_claimID payload) disputing_party_address;
  '(valid, message) ← unpack r;
  (if negb valid then emit (report message) else mret tt);;
  (* 4. Transfer Stake to Locked Account *)
  r ← transfer_stake_to_locked_account disputing_party_address
        (di_staking_amount payload);
  '(valid, message) ← unpack r;
  (if negb valid then emit (report message) else mret tt);;
  (* 5. Initiate Dispute on Claim *)
  updated_claim ← in_claims (claims_db.initiate_dispute now (di_claimID payload)
                               disputing_party_address);
  if updated_claim is None
  then emit (report Failed_to_initiate_dispute);; mret false
  else
  (* 6. Update user db *)
  claim ← in_claims (claims_db.get_claim (di_claimID payload));
  match claim with
  | None => raise AttributeError
  | Some claim =>
      update_user ← in_users (users_db.get_user (Some (user_address claim)));
      match update_user with
      | None => raise AttributeError
      | Some update_user =>
          in_users (users_db.mutate (user_address claim)
            (fun u => set_open_disputes
                        ({[KInt (di_claimID payload)]} ∪ open_disputes u) u));;
          in_users (users_db.del_open_claims (user_address claim) update_user
                      (KInt (di_claimID payload)));;
          emit (report (Dispute_initiated (di_claimID payload)
                          disputing_party_address));;
          mret true
      end
  end.

End generate_dispute.

(** ** routes/finalize_claim_route.py *)

Module finalize_claim.

Definition handle_finalize (now : Z) (data_metadata : Metadata) (payload : FinalizeInput)
  : M World bool :=
  if negb (negb (bool_decide (fi_claimID payload = 0))
           || negb (bool_decide (fi_prep_CID payload = "")))
  then emit (report Not_enough_parameters);; raise (ValueError Not_enough_parameters)
  else
  claim ← in_claims (claims_db.get_claim (fi_claimID payload));
  match claim with
  | None => emit (report Claim_doesnt_exist);; raise (ValueError Claim_doesnt_exist)
  | Some claim =>
      (if bool_decide (status claim = OPEN) then
         claim_last_edited ← last_edited claim;
         if timestamp data_metadata <? claim_last_edited + settings.CLAIM_EPOCH
         then
           claim_last_edited ← last_edited claim;
           let seconds_to_accept :=
             claim_last_edited + settings.CLAIM_EPOCH - timestamp data_metadata in
           emit (report (Claim_cant_be_finalized_yet seconds_to_accept));;
           raise (ValueError (Claim_cant_be_finalized_yet seconds_to_accept))
         else
           in_claims (claims_db.finalize_claim now (fi_claimID payload) FINALIZED);;
           user ← in_users (users_db.get_user (Some (user_address claim)));
           (if user is None then raise AttributeError else mret tt);;
           in_users (users_db.mutate (user_address claim)
             (fun u => set_total_claims (total_claims u + 1) u));;
           in_users (users_db.mutate (user_address claim)
             (fun u => set_correct_claims (correct_claims u + 1) u));;
           in_users (users_db.mutate (user_address claim)
             (fun u => set_open_claims
                         (open_claims u ∖ {[KInt (fi_claimID payload)]}) u));;
           in_bank (bank_db.transfer (Some settings.LOCKED_ASSET_ADDRESS)
                      (Some (user_address claim))
                      (settings.COLLATERAL_AMOUNT + settings.CLAIM_INCENTIVE))
       else if bool_decide (status claim = DISPUTING) then
         claim_last_edited ← last_edited claim;
         if timestamp data_metadata <? claim_last_edited + settings.DISPUTE_EPOCH
         then
           claim_last_edited ← last_edited claim;
           let seconds_to_accept :=
             claim_last_edited + settings.DISPUTE_EPOCH - timestamp data_metadata in
           emit (report (Claim_cant_be_finalized_yet seconds_to_accept));;
           raise (ValueError (Claim_cant_be_finalized_yet seconds_to_accept))
         else
           in_claims (claims_db.finalize_claim now (fi_claimID payload) DISPUTED);;
           claimant ← in_users (users_db.get_user (Some (user_address claim)));
           (if claimant is None then raise AttributeError else mret tt);;
           in_users (users_db.mutate (user_address claim)
             (fun u => set_total_claims (total_claims u + 1) u));;
           in_users (users_db.mutate (user_address claim)
             (fun u => set_total_disputes (total_disputes u + 1) u));;
           in_users (users_db.mutate (user_address claim)
             (fun u => set_open_disputes
                         (open_disputes u ∖ {[KInt (fi_claimID payload)]}) u));;
           disputer ← in_users (users_db.get_user (disputing_user_address claim));
           match disputing_user_address claim, disputer with
           | Some d, Some _ =>
               in_users (users_db.mutate d
                 (fun u => set_total_disputes (total_disputes u + 1) u));;
               in_users (users_db.mutate d
                 (fun u => set_won_disputes (won_disputes u + 1) u));;
               in_bank (bank_db.transfer (Some settings.LOCKED_ASSET_ADDRESS)
                          (disputing_user_address claim) settings.COLLATERAL_AMOUNT)
           | _, _ => raise AttributeError
           end
       else
         emit (report Can_only_finalize_Open_or_Disputing);;
         raise (ValueError Can_only_finalize_Open_or_Disputing));;
      emit (notice (Claim_finalized (fi_claimID payload)));;
      mret true
  end.

End finalize_claim.

(** ** routes/validate_claim_route.py *)

(** A row of the telemetry table, with the three columns the route reads;
    [water_usage] is a float64 column. *)
Record Row := mkRow {
  type : string;
  sensor_id : Z;
  water_usage : float
}.

(** pandas and hashlib, as far as [calculate_endpoint_usage] calls them:
    [pd.read_csv] on the text, [DataFrame.to_csv(index=False, header=False)]
    on the grouped table, and [hashlib.sha256(...).hexdigest()].  A text
    that is no table with the columns [type], [sensor_id] and [water_usage]
    raises: in the source [read_csv] itself, or the [KeyError] of the first
    column that is looked up and missing. *)
Record Library := mkLibrary {
  read_csv : string -> outcome (list Row);
  to_csv : list (Z * float) -> string;
  sha256_hexdigest : string -> string
}.

Module validate_and_finalize.

(** [groupby(...).sum()] on a float64 column: the rows of a group are
    added in the order of the table with a running compensation, and a
    NaN is skipped. *)
Definition add_compensated (acc : float * float) (val : float) : float * float :=
  let '(sumx, compensation) := acc in
  if negb (PrimFloat.eqb val val) then acc
  else
    let y := (val - compensation)%float in
    let t := (sumx + y)%float in
    (t, (t - sumx - y)%float).

Definition group_sum (values : list float) : float :=
  (foldl add_compensated (0%float, 0%float) values).1.

(** [filtered_data.groupby("sensor_id")["water_usage"].sum().reset_index()]:
    one row per sensor, in ascending order of the sensor ids. *)
Definition groupby_sum (filtered_data : list Row) : list (Z * float) :=
  let keys := merge_sort Z.le (remove_dups (map sensor_id filtered_data)) in
  map (fun key =>
         (key, group_sum (map water_usage
                            (filter (fun row => sensor_id row = key) filtered_data))))
      keys.

Section Hash.
Variable lib : Library.

Definition calculate_endpoint_usage (csv_data : string) : outcome string :=
  match read_csv lib csv_data with
  | Raise e => Raise e
  | Ok data =>
      let filtered_data := filter (fun row => type row = "Endpoint") data in
      let grouped_data := groupby_sum filtered_data in
      let grouped_data_csv := to_csv lib grouped_data in
      Ok (sha256_hexdigest lib grouped_data_csv)
  end.

Definition validate_claim (preprocessed_data comp_proof : string) : M World bool :=
  calculated_hash ← of_outcome (calculate_endpoint_usage preprocessed_data);
  mret (bool_decide (calculated_hash = comp_proof)).

Definition payout : Z :=
  settings.COLLATERAL_AMOUNT + settings.VALIDATOR_STAKING + settings.CLAIM_INCENTIVE.

Definition validate_and_finalize_claim (now : Z) (claimID : Z)
    (preprocessed_data : string) (timestamp : Z) (comp_proof : string)
  : M World (bool * message) :=
  is_claim_valid ← validate_claim preprocessed_data comp_proof;
  claim ← in_claims (claims_db.get_claim claimID);
  match claim with
  | None => raise AttributeError
  | Some claim =>
      (if is_claim_valid : bool then
         (if bool_decide (status claim = DISPUTING)
          then in_users (users_db.lost_claim (disputing_user_address claim)
                           (KInt claimID));; mret tt
          else mret tt);;
         in_claims (claims_db.validate_or_contradict_claim now claimID VALIDATED);;
         in_users (users_db.won_claim (Some (user_address claim)) (KInt claimID));;
         in_bank (bank_db.transfer (Some settings.LOCKED_ASSET_ADDRESS)
                    (Some (user_address claim)) payout)
       else
         (if bool_decide (status claim = DISPUTING)
          then in_users (users_db.won_claim (disputing_user_address claim)
                           (KInt claimID));; mret tt
          else mret tt);;
         in_claims (claims_db.validate_or_contradict_claim now claimID CONTRADICTED);;
         in_users (users_db.lost_claim (Some (user_address claim)) (KInt claimID));;
         in_bank (bank_db.transfer (Some settings.LOCKED_ASSET_ADDRESS)
                    (disputing_user_address claim) payout));;
      mret (true, if is_claim_valid : bool then Claim_validated claimID
                  else Claim_contradicted claimID)
  end.

(** The ownership check compares [claim.user_address] with
    [data.metadata.sender]. *)
Definition handle_validate (now : Z) (data_metadata : Metadata) (payload : ValidateInput)
  : M World bool :=
  if bool_decide (vi_claimID payload = 0)
     || bool_decide (vi_preprocessed_data payload = "")
  then emit (report Not_enough_parameters);; raise (ValueError Not_enough_parameters)
  else
  claim ← in_claims (claims_db.get_claim (vi_claimID payload));
  match claim with
  | None => emit (report Claim_doesnt_exist);; raise (ValueError Claim_doesnt_exist)
  | Some claim =>
      if negb (bool_decide (status claim = OPEN) || bool_decide (status claim = DISPUTING))
      then
        emit (report Can_only_validate_Open_and_Disputing);;
        raise (ValueError Can_only_validate_Open_and_Disputing)
      else
      metadata_sender ← sender data_metadata;
      if negb (bool_decide (user_address claim = metadata_sender))
      then
        emit (report Can_only_validate_own_claims);;
        raise (ValueError Can_only_validate_own_claims)
      else
        r ← validate_and_finalize_claim now (vi_claimID payload)
               (vi_preprocessed_data payload) (timestamp data_metadata)
               (vi_computation_proof payload);
        let '(valid, msg) := r in
        if valid : bool then emit (notice msg);; mret true else mret false
  end.

End Hash.
End validate_and_finalize.

(** ** The trigger stream *)

Inductive trigger :=
| Deposit (data_metadata : Metadata) (erc20_deposit : Erc20Deposit)
| Withdraw (data_metadata : Metadata) (payload : WithdrawInput)
| OpenClaim (now : Z) (data_metadata : Metadata) (payload : ClaimInput)
| Dispute (now : Z) (data_metadata : Metadata) (payload : DisputeInput)
| Finalize (now : Z) (data_metadata : Metadata) (payload : FinalizeInput)
| Validate (now : Z) (data_metadata : Metadata) (payload : ValidateInput).

Section Engine.
Variable lib : Library.

Definition handle (t : trigger) : M World bool :=
  match t with
  | Deposit md d => register_deposit.default_handler md d
  | Withdraw md p => withdraw.withdraw md p
  | OpenClaim now md p => generate_claim.handle_claim now md p
  | Dispute now md p => generate_dispute.handle_dispute now md p
  | Finalize now md p => finalize_claim.handle_finalize now md p
  | Validate now md p => validate_and_finalize.handle_validate lib now md p
  end.

(** The process state after a trigger, whatever the handler answered. *)
Definition step (w : World) (t : trigger) : World := (handle t w).1.

Definition run (w : World) (ts : list trigger) : World := foldl step w ts.
End Engine.

(** The state of a freshly started process. *)
Definition init : World :=
  mkWorld (mkBank ∅) (mkClaims [] 1) (mkUsers ∅) [].

(** ** Vocabulary of the properties *)

(** [c] never leaves [P], whether it returns or raises. *)
Definition preserves {S A} (P : S -> Prop) (c : M S A) : Prop :=
  forall s, P s -> P (c s).1.

(** No wallet of the ledger holds a negative balance. *)
Definition bank_nonneg (db : BankDatabase) : Prop :=
  forall addr wallet, wallets db !! addr = Some wallet -> 0 <= balance wallet.

Definition world_nonneg (w : World) : Prop := bank_nonneg (bank w).

(** A call of one of the ledger's methods, and a sequence of them. *)
Inductive bank_call :=
| call_deposit (address : option string) (amount : Z)
| call_withdraw (address : option string) (amount : Z)
| call_transfer (sender receiver : option string) (amount : Z)
| call_balance (address : option string).

Definition bank_call_run (db : BankDatabase) (c : bank_call) : BankDatabase :=
  match c with
  | call_deposit address amount => (bank_db.deposit address amount db).1
  | call_withdraw address amount => (bank_db.withdraw address amount db).1
  | call_transfer sender receiver amount =>
      (bank_db.transfer sender receiver amount db).1
  | call_balance address => (bank_db.balance address db).1
  end.

Definition bank_calls_run (db : BankDatabase) (cs : list bank_call) : BankDatabase :=
  foldl bank_call_run db cs.

(** Statuses without an outgoing edge in the specification's graph. *)
Definition terminal (s : Status) : bool :=
  match s with
  | FINALIZED | DISPUTED | VALIDATED | CONTRADICTED => true
  | _ => false
  end.


(** Views of the process state. *)
Definition claim_of (w : World) (claim_id : Z) : option Claim :=
  dict_get (claims (claimsdb w)) claim_id.

Definition user_of (w : World) (user_id : string) : option User :=
  users (usersdb w) !! user_id.

Definition open_claims_of (w : World) (user_id : string) : gset pykey :=
  from_option open_claims ∅ (user_of w user_id).

Definition balance_in (w : World) (address : string) : Z :=
  balance_of (bank w) address.

(** The three databases of two states agree (the rollup outputs may differ). *)
Definition same_databases (w w' : World) : Prop :=
  bank w' = bank w /\ claimsdb w' = claimsdb w /\ usersdb w' = usersdb w.

(** The claims bound to a preparation CID. *)
Definition bound_to (w : World) (prep_CID : string) : list Claim :=
  filter (fun claim => prepCID claim = prep_CID) (dict_values (claims (claimsdb w))).

(** The registry of a state is [db]: what a computation that never calls
    a mutating method of [claims_db] preserves. *)
Definition keeps_registry (db : ClaimsDatabase) (w : World) : Prop := claimsdb w = db.

(** Every address shows the same balance in both states.  A read of the
    ledger may create an empty wallet, which no balance shows. *)
Definition same_balances (w w' : World) : Prop :=
  forall address, balance_in w' address = balance_in w address.

(** Nothing observable has changed: the balances, the registry and the
    users are those of [w]. *)
Definition unchanged (w w' : World) : Prop :=
  same_balances w w' /\ claimsdb w' = claimsdb w /\ usersdb w' = usersdb w.

(** The state after [rollup.report(m)]. *)
Definition reported (w : World) (m : message) : World :=
  mkWorld (bank w) (claimsdb w) (usersdb w) (outputs w ++ [report m]).

(** A call of one of the registry's mutating methods, and a sequence of
    them from the registry of a fresh process. *)
Inductive claims_call :=
| call_create_claim (now : Z) (prep_CID user_address : string)
    (timestamp_of_claim : Z) (comp_proof comp_CID : string) (value : Z)
| call_initiate_dispute (now claim_id : Z) (disputing_user_address : string)
| call_finalize_claim (now claim_id : Z) (final_status : Status)
| call_validate_or_contradict_claim (now claim_id : Z) (claim_status : Status).

Definition claims_call_run (db : ClaimsDatabase) (c : claims_call) : ClaimsDatabase :=
  match c with
  | call_create_claim now prep_CID user_address timestamp_of_claim
      comp_proof comp_CID value =>
      (claims_db.create_claim now prep_CID user_address timestamp_of_claim
         comp_proof comp_CID value db).1
  | call_initiate_dispute now claim_id disputing_user_address =>
      (claims_db.initiate_dispute now claim_id disputing_user_address db).1
  | call_finalize_claim now claim_id final_status =>
      (claims_db.finalize_claim now claim_id final_status db).1
  | call_validate_or_contradict_claim now claim_id claim_status =>
      (claims_db.validate_or_contradict_claim now claim_id claim_status db).1
  end.

Definition claims_calls_run (db : ClaimsDatabase) (cs : list claims_call)
  : ClaimsDatabase :=
  foldl claims_call_run db cs.

(** The ids in use are 1, 2, ... up to the one before [next_claim_id]. *)
Definition consecutive_ids (db : ClaimsDatabase) : Prop :=
  1 <= next_claim_id db
  /\ map fst (claims db) = seqZ 1 (next_claim_id db - 1).

(** Every record of the users database is as [create_user] makes it:
    empty open sets and counters at zero. *)
Definition all_fresh (db : UsersDatabase) : Prop :=
  forall user_id user, users db !! user_id = Some user -> user = mkUser ∅ ∅ 0 0 0 0.

(** A withdrawal sent from the address of the locked pool itself. *)
Definition pool_withdrawal (t : trigger) : Prop :=
  match t with
  | Withdraw data_metadata _ =>
      lower (msg_sender data_metadata) = lower settings.LOCKED_ASSET_ADDRESS
  | _ => False
  end.

Set Warnings "-inexact-float".

(** ** Scenarios *)

Definition alice : string := "0xa11ce".
Definition bob : string := "0xb0b".

Definition portal : Metadata := mkMetadata settings.PORTAL_ERC20_ADDRESS 0.

Definition deposit_of (who : string) (amount : Z) : trigger :=
  Deposit portal (mkErc20Deposit who settings.TOKEN_ERC20_ADDRESS amount).

(** One sensor's readings, in two orders of the same three rows, and the
    CSV texts that hold them. *)
Definition usage_rows : list Row :=
  [mkRow "Endpoint" 1 0.1; mkRow "Endpoint" 1 0.4; mkRow "Endpoint" 1 0.1].

Definition usage_rows_reordered : list Row :=
  [mkRow "Endpoint" 1 0.1; mkRow "Endpoint" 1 0.1; mkRow "Endpoint" 1 0.4].

Definition usage_csv : string :=
  "type,sensor_id,water_usage
Endpoint,1,0.1
Endpoint,1,0.4
Endpoint,1,0.1
".

Definition usage_csv_reordered : string :=
  "type,sensor_id,water_usage
Endpoint,1,0.1
Endpoint,1,0.1
Endpoint,1,0.4
".

(** A library to run the scenarios with.  Its [read_csv] knows the two
    texts above and raises on any other, as [pd.read_csv] followed by
    [data["type"]] does on a text without that column; its [to_csv] writes
    the two sums the tables give; its digest only tags the text. *)
Definition scenario_library : Library :=
  mkLibrary
    (fun csv_data =>
       if decide (csv_data = usage_csv) then Ok usage_rows
       else if decide (csv_data = usage_csv_reordered) then Ok usage_rows_reordered
       else Raise (KeyError (KStr "type")))
    (fun grouped_data =>
       match grouped_data with
       | [(key, total)] =>
           str key +:+ ","
           +:+ (if PrimFloat.eqb total 0.6 then "0.6"
                else if PrimFloat.eqb total 0.6000000000000001 then "0.6000000000000001"
                else "nan")
       | _ => ""
       end)
    (fun text => "sha256:" +:+ text).

(** The digest of [usage_csv] under that library. *)
Definition usage_proof : string := "sha256:1,0.6".

(** Alice's claim on a preparation CID, and the triggers aimed at a claim. *)
Definition claim_on (prep_CID : string) : ClaimInput :=
  mkClaimInput prep_CID "comp" settings.COLLATERAL_AMOUNT usage_proof.

Definition open_claim_of (now t : Z) (prep_CID : string) : trigger :=
  OpenClaim now (mkMetadata alice t) (claim_on prep_CID).

Definition finalize_at (now t : Z) (claim_id : Z) (prep_CID : string) : trigger :=
  Finalize now (mkMetadata alice t) (mkFinalizeInput claim_id prep_CID).

(** No Claim trigger gets as far as [claims_db.create_claim]: the states
    that hold a claim are built by calling the functions of the claim
    route themselves, in the order [handle_claim] calls them, with the
    proof handed over as an argument. *)
Definition file_claim (now : Z) (data_metadata : Metadata) (payload : ClaimInput)
  : M World unit :=
  generate_claim.check_and_lock_funds (msg_sender data_metadata);;
  '(new_claim_id, _) ←
    generate_claim.create_and_register_claim now (ci_prep_CID payload)
      (msg_sender data_metadata) (timestamp data_metadata)
      (ci_computation_proof payload) (ci_comp_CID payload) (ci_collateral payload);
  generate_claim.update_user_open_claims (msg_sender data_metadata) new_claim_id.

(** Alice deposits five units; her claim 1 on "p1" is filed at time 0. *)
Definition one_claim : World :=
  (file_claim 0 (mkMetadata alice 0) (claim_on "p1")
     (run scenario_library init [deposit_of alice 5000000000000000000])).1.

(** Scenario C of the specification: Alice deposits exactly the collateral
    and her claim 1 is filed at time 0. *)
Definition scenario_C : World :=
  (file_claim 0 (mkMetadata alice 0) (claim_on "p1")
     (run scenario_library init [deposit_of alice settings.COLLATERAL_AMOUNT])).1.

(** Alice files a second claim, on "p2". *)
Definition two_claims : World :=
  (file_claim 0 (mkMetadata alice 0) (claim_on "p2") one_claim).1.

(** [claims_db.finalize_claim] marks claim 1 FINALIZED at time 30, and Bob
    deposits the stake. *)
Definition finalized : World :=
  run scenario_library
    (in_claims (claims_db.finalize_claim 30 1 FINALIZED) two_claims).1
    [deposit_of bob settings.VALIDATOR_STAKING].

(** Bob deposits the stake and [claims_db.initiate_dispute] records his
    dispute of claim 1 at time 10. *)
Definition disputed : World :=
  (in_claims (claims_db.initiate_dispute 10 1 bob)
     (run scenario_library one_claim [deposit_of bob settings.VALIDATOR_STAKING])).1.

(** A state in which Alice's open claim 1 is filed under the integer key
    and the pool holds ten units, built with the methods of the three
    databases. *)
Definition integer_keys : World :=
  ((in_bank (bank_db.deposit (Some settings.LOCKED_ASSET_ADDRESS) 10000000000000000000);;
    in_claims (claims_db.create_claim 0 "p1" alice 0 usage_proof "comp"
                 settings.COLLATERAL_AMOUNT);;
    in_users (users_db.create_user alice);;
    in_users (users_db.update_user (Some alice) [kw_open_claims {[KInt 1]}]))
     init).1.

(** * Properties *)

(** ** Reasoning about computations *)

Lemma bind_mret {S A B} (a : A) (k : A -> M S B) (s : S) :
  (mret a ≫= k) s = k a s.
Proof. reflexivity. Qed.

Lemma bind_run {S A B} (c : M S A) (k : A -> M S B) (s s' : S) (a : A) :
  c s = (s', Ok a) -> (c ≫= k) s = k a s'.
Proof. intros H. unfold mbind, M_bind. rewrite H. reflexivity. Qed.

Lemma bind_raise {S A B} (c : M S A) (k : A -> M S B) (s s' : S) (e : exn) :
  c s = (s', Raise e) -> (c ≫= k) s = (s', Raise e).
Proof. intros H. unfold mbind, M_bind. rewrite H. reflexivity. Qed.

(** ** Evaluating the routes on the scenarios *)

Ltac evaluate :=
  intros; repeat apply conj;
  lazymatch goal with
  | |- ?x ∈ ?X =>
      apply (@bool_decide_unpack (x ∈ X) _); vm_compute; exact I
  | |- ?x ∉ ?X =>
      apply (proj1 (@bool_decide_eq_false (x ∈ X) _)); vm_compute; reflexivity
  | |- _ => vm_compute; first [reflexivity | discriminate]
  end.

Section Preserves.
Context {S : Type} (P : S -> Prop).

Lemma preserves_ret {A} (a : A) : preserves P (mret a).
Proof. intros s Hs. exact Hs. Qed.

Lemma preserves_raise {A} (e : exn) : preserves P (raise (A := A) e).
Proof. intros s Hs. exact Hs. Qed.

Lemma preserves_bind {A B} (c : M S A) (k : A -> M S B) :
  preserves P c -> (forall a, preserves P (k a)) -> preserves P (c ≫= k).
Proof.
  intros Hc Hk s Hs. specialize (Hc s Hs).
  unfold mbind, M_bind. destruct (c s) as [s' [a|e]]; simpl in *.
  - apply Hk, Hc.
  - exact Hc.
Qed.

Lemma preserves_try_except {A} (c : M S A) (h : exn -> M S A) :
  preserves P c -> (forall e, preserves P (h e)) -> preserves P (try_except c h).
Proof.
  intros Hc Hh s Hs. specialize (Hc s Hs).
  unfold try_except. destruct (c s) as [s' [a|e]]; simpl in *.
  - exact Hc.
  - apply Hh, Hc.
Qed.

Lemma preserves_try_except_then {A B} (c : M S A) (h : exn -> M S B) (k : A -> M S B) :
  preserves P c -> (forall e, preserves P (h e)) -> (forall a, preserves P (k a)) ->
  preserves P (try_except_then c h k).
Proof.
  intros Hc Hh Hk s Hs. specialize (Hc s Hs).
  unfold try_except_then. destruct (c s) as [s' [a|e]]; simpl in *.
  - apply Hk, Hc.
  - apply Hh, Hc.
Qed.

Lemma preserves_unpack (r : answer) : preserves P (unpack r).
Proof. destruct r; intros s Hs; exact Hs. Qed.

Lemma preserves_of_outcome {A} (r : outcome A) : preserves P (of_outcome r).
Proof. intros s Hs. exact Hs. Qed.

End Preserves.

(** ** The ledger never shows a negative balance *)

Lemma bank_nonneg_insert db addr wallet :
  bank_nonneg db -> 0 <= balance wallet ->
  bank_nonneg (mkBank (<[addr := wallet]> (wallets db))).
Proof.
  intros Hdb Hw a w'. simpl. rewrite lookup_insert.
  case_decide; [intros [= <-]; exact Hw | apply Hdb].
Qed.

Lemma bank_nonneg_empty : bank_nonneg (mkBank ∅).
Proof. intros a w. simpl. rewrite lookup_empty. discriminate. Qed.

Lemma bank_nonneg_balance_of db address : bank_nonneg db -> 0 <= balance_of db address.
Proof.
  intros Hdb. unfold balance_of.
  destruct (wallets db !! lower address) eqn:E; [eapply Hdb, E | lia].
Qed.

Lemma get_wallet_nonneg address db :
  bank_nonneg db ->
  bank_nonneg (bank_db._get_wallet address db).1 /\
  forall slot, (bank_db._get_wallet address db).2 = Ok slot -> 0 <= balance slot.2.
Proof.
  intros Hdb. destruct address as [a|]; simpl; [|split; [exact Hdb | discriminate]].
  destruct (wallets db !! lower a) eqn:E; simpl.
  - split; [exact Hdb|]. intros slot [= <-]. simpl. eapply Hdb, E.
  - split; [apply bank_nonneg_insert; simpl; [exact Hdb | lia]|].
    intros slot [= <-]. simpl. lia.
Qed.

Lemma deposit_nonneg address amount : preserves bank_nonneg (bank_db.deposit address amount).
Proof.
  intros db Hdb. unfold bank_db.deposit.
  destruct (Z.leb_spec amount 0); [exact Hdb|].
  unfold mbind, M_bind.
  destruct (get_wallet_nonneg address db Hdb) as [H1 H2].
  destruct (bank_db._get_wallet address db) as [db' [slot|e]]; simpl in *; [|exact H1].
  apply bank_nonneg_insert; [exact H1|]. simpl. specialize (H2 slot eq_refl). lia.
Qed.

Lemma withdraw_nonneg address amount : preserves bank_nonneg (bank_db.withdraw address amount).
Proof.
  intros db Hdb. unfold bank_db.withdraw.
  destruct (Z.leb_spec amount 0); [exact Hdb|].
  unfold mbind, M_bind.
  destruct (get_wallet_nonneg address db Hdb) as [H1 H2].
  destruct (bank_db._get_wallet address db) as [db' [slot|e]]; simpl in *; [|exact H1].
  destruct (Z.ltb_spec (balance slot.2) amount); simpl; [exact H1|].
  apply bank_nonneg_insert; [exact H1|]. simpl. lia.
Qed.

Lemma transfer_nonneg sender receiver amount :
  preserves bank_nonneg (bank_db.transfer sender receiver amount).
Proof.
  unfold bank_db.transfer. destruct (amount <=? 0).
  - apply preserves_raise.
  - apply preserves_bind; [apply withdraw_nonneg | intros _; apply deposit_nonneg].
Qed.

Lemma balance_nonneg address : preserves bank_nonneg (bank_db.balance address).
Proof.
  intros db Hdb. unfold bank_db.balance, mbind, M_bind.
  destruct (get_wallet_nonneg address db Hdb) as [H1 _].
  destruct (bank_db._get_wallet address db) as [db' [slot|e]]; exact H1.
Qed.

Lemma bank_calls_nonneg cs db : bank_nonneg db -> bank_nonneg (bank_calls_run db cs).
Proof.
  revert db. induction cs as [|c cs IH]; intros db Hdb; simpl; [exact Hdb|].
  apply IH. destruct c; simpl.
  - apply deposit_nonneg, Hdb.
  - apply withdraw_nonneg, Hdb.
  - apply transfer_nonneg, Hdb.
  - apply balance_nonneg, Hdb.
Qed.

Lemma in_bank_nonneg {A} (c : M BankDatabase A) :
  preserves bank_nonneg c -> preserves world_nonneg (in_bank c).
Proof.
  intros Hc w Hw. unfold in_bank, zoom, world_nonneg.
  specialize (Hc (bank w) Hw). destruct (c (bank w)); exact Hc.
Qed.

Lemma in_claims_nonneg {A} (c : M ClaimsDatabase A) : preserves world_nonneg (in_claims c).
Proof. intros w Hw. unfold in_claims, zoom. destruct (c (claimsdb w)); exact Hw. Qed.

Lemma in_users_nonneg {A} (c : M UsersDatabase A) : preserves world_nonneg (in_users c).
Proof. intros w Hw. unfold in_users, zoom. destruct (c (usersdb w)); exact Hw. Qed.

Lemma emit_nonneg o : preserves world_nonneg (emit o).
Proof. intros w Hw. exact Hw. Qed.

Ltac preserve_with leaf :=
  repeat first
    [ apply preserves_ret
    | apply preserves_raise
    | apply preserves_unpack
    | apply preserves_of_outcome
    | leaf
    | apply preserves_bind; [| intros ?]
    | apply preserves_try_except; [| intros ?]
    | apply preserves_try_except_then; [| intros ? | intros ?]
    | match goal with
      | |- preserves _ (if ?b then _ else _) => destruct b
      | |- preserves _ (match ?x with _ => _ end) => destruct x
      end ].

Ltac preserve :=
  preserve_with
    ltac:(first
      [ apply emit_nonneg
      | apply in_claims_nonneg
      | apply in_users_nonneg
      | apply in_bank_nonneg;
        first [ apply deposit_nonneg | apply withdraw_nonneg
              | apply transfer_nonneg | apply balance_nonneg ] ]).

Lemma handle_nonneg h t : preserves world_nonneg (handle h t).
Proof.
  destruct t; simpl.
  - unfold register_deposit.default_handler,
      register_deposit.process_deposit_and_add_user. preserve.
  - unfold withdraw.withdraw. preserve.
  - unfold generate_claim.handle_claim, generate_claim.check_existing_claim,
      generate_claim.check_and_lock_funds, generate_claim.create_and_register_claim,
      generate_claim.update_user_open_claims. preserve.
  - unfold generate_dispute.handle_dispute, generate_dispute.check_validator_stake,
      generate_dispute.check_claim_exists_and_verify_CID,
      generate_dispute.check_claim_eligible_for_dispute,
      generate_dispute.transfer_stake_to_locked_account. preserve.
  - unfold finalize_claim.handle_finalize. preserve.
  - unfold validate_and_finalize.handle_validate,
      validate_and_finalize.validate_and_finalize_claim,
      validate_and_finalize.validate_claim. preserve.
Qed.

Lemma run_nonneg h ts w : world_nonneg w -> world_nonneg (run h w ts).
Proof.
  revert w. induction ts as [|t ts IH]; intros w Hw; simpl; [exact Hw|].
  apply IH. apply handle_nonneg, Hw.
Qed.

(** A withdrawal of more than the address holds is refused and moves
    nothing. *)
Lemma withdraw_insufficient db address amount :
  0 < amount -> balance_of db address < amount ->
  (bank_db.withdraw (Some address) amount db).2 = Raise (Exception insufficient_funds)
  /\ forall a, balance_of (bank_db.withdraw (Some address) amount db).1 a = balance_of db a.
Proof.
  intros Hpos Hlt. unfold bank_db.withdraw, balance_of in *.
  destruct (Z.leb_spec amount 0); [lia|].
  unfold mbind, M_bind. simpl.
  destruct (wallets db !! lower address) as [wallet|] eqn:E; simpl.
  - destruct (Z.ltb_spec (balance wallet) amount); [|lia]. split; reflexivity.
  - destruct (Z.ltb_spec 0 amount); [|lia]. simpl. split; [reflexivity|].
    intros a. rewrite lookup_insert. case_decide as Ha; [|reflexivity].
    rewrite <- Ha, E. reflexivity.
Qed.

(** C9. Whatever deposits, withdrawals and transfers are made on the
    ledger, and whatever triggers the routes handle (their transfers to
    and from the locked pool included), every address shows a balance of
    at least zero; and a withdrawal of more than an address holds raises
    "insufficient funds" and leaves every balance as it was. *)
Theorem balance_never_negative :
  (forall (cs : list bank_call) (address : string),
      0 <= balance_of (bank_calls_run (mkBank ∅) cs) address)
  /\ (forall (lib : Library) (ts : list trigger) (address : string),
      0 <= balance_in (run lib init ts) address)
  /\ (forall (db : BankDatabase) (address : string) (amount : Z),
      0 < amount -> balance_of db address < amount ->
      (bank_db.withdraw (Some address) amount db).2
        = Raise (Exception insufficient_funds)
      /\ forall a, balance_of (bank_db.withdraw (Some address) amount db).1 a
                   = balance_of db a).
Proof.
  split; [|split].
  - intros cs address. apply bank_nonneg_balance_of, bank_calls_nonneg, bank_nonneg_empty.
  - intros lib ts address. apply bank_nonneg_balance_of.
    apply (run_nonneg lib ts init). apply bank_nonneg_empty.
  - apply withdraw_insufficient.
Qed.

(** Scenario A of the specification, on the ledger and through the routes. *)
Lemma balance_never_negative_witness :
  0 <= balance_of
         (bank_calls_run (mkBank ∅)
            [call_deposit (Some alice) 10; call_withdraw (Some alice) 10]) alice
  /\ 0 <= balance_in
            (run scenario_library init
               [deposit_of alice 10;
                Withdraw (mkMetadata alice 1) (mkWithdrawInput 10);
                Withdraw (mkMetadata alice 2) (mkWithdrawInput 1)]) alice
  /\ (bank_db.withdraw (Some alice) 1
        (bank_calls_run (mkBank ∅)
           [call_deposit (Some alice) 10; call_withdraw (Some alice) 10])).2
     = Raise (Exception insufficient_funds).
Proof.
  destruct balance_never_negative as (H1 & H2 & H3).
  split; [apply H1 | split; [apply H2 |]].
  apply H3; [lia | vm_compute; reflexivity].
Defined.

(** ** Winning a claim *)

(** C10. For a user id present in the users database whose open claims
    hold the claim id, [won_claim] adds one to [total_claims] and to
    [correct_claims], takes the id out of [open_claims], leaves
    [open_disputes], [total_disputes], [won_disputes] and every other user
    as they were, and returns the updated user; for an absent user id it
    returns [None] and changes nothing. *)
Theorem won_claim_frame (db : UsersDatabase) (claimID : pykey) :
  (forall user_id user,
      users db !! user_id = Some user -> claimID ∈ open_claims user ->
      let user' :=
        mkUser (open_claims user ∖ {[claimID]}) (open_disputes user)
               (total_disputes user) (won_disputes user)
               (total_claims user + 1) (correct_claims user + 1) in
      users_db.won_claim (Some user_id) claimID db
      = (mkUsers (<[user_id := user']> (users db)), Ok (Some user')))
  /\ (forall user_id,
      (user_id ≫= fun k => users db !! k) = None ->
      users_db.won_claim user_id claimID db = (db, Ok None)).
Proof.
  split.
  - intros user_id user Hu Hin user'.
    unfold users_db.won_claim, users_db.del_open_claims, users_db.mutate,
      users_db.get_user, modify, mbind, M_bind. simpl. rewrite Hu. simpl.
    rewrite decide_True by exact Hin. simpl.
    rewrite !alter_alter_eq, (alter_alt_Some _ _ user_id user) by exact Hu.
    rewrite lookup_insert_eq. reflexivity.
  - intros user_id Hnone.
    unfold users_db.won_claim, users_db.get_user, mbind, M_bind. simpl.
    destruct user_id as [uid|]; simpl in *; [rewrite Hnone|]; reflexivity.
Qed.

Lemma won_claim_frame_witness :
  let db := usersdb integer_keys in
  let user := mkUser {[KInt 1]} ∅ 0 0 0 0 in
  let user' :=
    mkUser (open_claims user ∖ {[KInt 1]}) (open_disputes user)
           (total_disputes user) (won_disputes user)
           (total_claims user + 1) (correct_claims user + 1) in
  users_db.won_claim (Some alice) (KInt 1) db
  = (mkUsers (<[alice := user']> (users db)), Ok (Some user'))
  /\ users_db.won_claim (Some bob) (KInt 1) db = (db, Ok None).
Proof.
  intros db user user'.
  destruct (won_claim_frame db (KInt 1)) as [Hpresent Habsent]. split.
  - apply (Hpresent alice user).
    + vm_compute. reflexivity.
    + vm_compute. reflexivity.
  - apply (Habsent (Some bob)). vm_compute. reflexivity.
Defined.

(** ** The duplicate check of the claim route *)

Lemma find_bound_to (w : World) (prep_CID : string) :
  List.find (fun claim => bool_decide (prepCID claim = prep_CID))
            (dict_values (claims (claimsdb w)))
  = head (bound_to w prep_CID).
Proof.
  unfold bound_to. induction (dict_values (claims (claimsdb w))) as [|c l IH]; simpl.
  - reflexivity.
  - rewrite filter_cons. case_bool_decide; case_decide; try contradiction; simpl.
    + reflexivity.
    + exact IH.
Qed.

Lemma check_existing_claim_eq (w : World) (prep_CID : string) :
  generate_claim.check_existing_claim prep_CID w
  = (w, Ok (if bool_decide (bound_to w prep_CID = [])
            then Pair true no_text else Pair false Claim_already_exists)).
Proof.
  unfold generate_claim.check_existing_claim, in_claims, zoom,
    claims_db.get_claim_by_prep_CID, mbind, M_bind. simpl.
  rewrite find_bound_to. destruct w as [b c u o]; simpl.
  destruct (bound_to _ prep_CID) as [|x l]; simpl; reflexivity.
Qed.

(** C7, as the code has it. The duplicate check of [handle_claim] refuses
    a preparation CID exactly when some claim of the registry is bound to
    it, whatever that claim's status; and then the route answers [False]
    and leaves the ledger, the registry and the users as they were. *)
Theorem duplicate_check_rejects_any_bound_claim (w : World) (prep_CID : string) :
  generate_claim.check_existing_claim prep_CID w
  = (w, Ok (if bool_decide (bound_to w prep_CID = [])
            then Pair true no_text else Pair false Claim_already_exists))
  /\ (forall now data_metadata payload,
        ci_prep_CID payload = prep_CID ->
        bound_to w prep_CID <> [] ->
        let r := generate_claim.handle_claim now data_metadata payload w in
        r.2 = Ok false /\ same_databases w r.1).
Proof.
  split; [apply check_existing_claim_eq|].
  intros now md p Hp Hbound r. subst r.
  unfold generate_claim.handle_claim, generate_claim.validate_collateral.
  case_bool_decide; simpl.
  - rewrite bind_mret. simpl.
    rewrite Hp, (bind_run _ _ _ _ _ (check_existing_claim_eq w prep_CID)).
    rewrite bool_decide_eq_false_2 by exact Hbound.
    repeat split; reflexivity.
  - repeat split; reflexivity.
Qed.

Lemma duplicate_check_rejects_any_bound_claim_witness :
  let r := generate_claim.handle_claim 40 (mkMetadata alice 40) (claim_on "p1")
             finalized in
  r.2 = Ok false /\ same_databases finalized r.1.
Proof.
  apply (proj2 (duplicate_check_rejects_any_bound_claim finalized "p1")).
  - reflexivity.
  - vm_compute. discriminate.
Defined.

(** C7, as stated, fails. In [finalized] the only claim bound to "p1" is
    claim 1, which is FINALIZED, and Alice holds more than the collateral;
    her new claim on "p1" is answered [False] with the report "Claim
    already exists". *)
Lemma terminal_claim_blocks_new_claim :
  let w := finalized in
  let r := handle scenario_library (open_claim_of 40 40 "p1") w in
  map status (bound_to w "p1") = [FINALIZED]
  /\ terminal FINALIZED = true
  /\ settings.COLLATERAL_AMOUNT <= balance_in w alice
  /\ r.2 = Ok false
  /\ last (outputs r.1) = Some (report Claim_already_exists)
  /\ claim_of r.1 (next_claim_id (claimsdb w)) = None.
Proof. evaluate. Qed.

(** ** Reading the state *)

Lemma world_eta (w : World) : mkWorld (bank w) (claimsdb w) (usersdb w) (outputs w) = w.
Proof. destruct w; reflexivity. Qed.

Lemma in_claims_get_claim w claim_id :
  in_claims (claims_db.get_claim claim_id) w = (w, Ok (claim_of w claim_id)).
Proof.
  unfold in_claims, zoom, claims_db.get_claim. simpl. rewrite world_eta. reflexivity.
Qed.

Lemma bind_unpack_pair {S B} valid msg (k : bool * message -> M S B) (s : S) :
  (unpack (Pair valid msg) ≫= k) s = k (valid, msg) s.
Proof. reflexivity. Qed.

Lemma bind_emit {B} o (k : unit -> M World B) (w : World) :
  (emit o ≫= k) w
  = k tt (mkWorld (bank w) (claimsdb w) (usersdb w) (outputs w ++ [o])).
Proof. reflexivity. Qed.

(** Reading a balance answers what the address holds; it may create the
    wallet, and changes nothing that can be observed. *)
Lemma balance_read db address :
  exists db',
    bank_db.balance (Some address) db = (db', Ok (balance_of db address))
    /\ forall a, balance_of db' a = balance_of db a.
Proof.
  unfold bank_db.balance, mbind, M_bind, balance_of. simpl.
  destruct (wallets db !! lower address) as [wallet|] eqn:E; simpl.
  - exists db. split; reflexivity.
  - eexists. split; [reflexivity|]. intros a. simpl.
    rewrite lookup_insert. case_decide as Ha; [|reflexivity].
    rewrite <- Ha, E. reflexivity.
Qed.

Lemma in_bank_balance w address :
  exists w',
    in_bank (bank_db.balance (Some address)) w = (w', Ok (balance_in w address))
    /\ unchanged w w' /\ outputs w' = outputs w.
Proof.
  destruct (balance_read (bank w) address) as (db' & E & Hsame).
  exists (mkWorld db' (claimsdb w) (usersdb w) (outputs w)).
  unfold in_bank, zoom. rewrite E. repeat split. exact Hsame.
Qed.

(** ** The dispute route *)

Lemma check_validator_stake_eq w address staking_amount :
  exists w',
    generate_dispute.check_validator_stake address staking_amount w
    = (w', Ok (if balance_in w address <? settings.VALIDATOR_STAKING
               then Pair false Insufficient_funds_for_staking
               else if negb (bool_decide (staking_amount = settings.VALIDATOR_STAKING))
               then Pair false Staking_Amount_is_not_equal
               else Pair true no_text))
    /\ unchanged w w' /\ outputs w' = outputs w.
Proof.
  destruct (in_bank_balance w address) as (w' & E & Hun & Hout).
  exists w'. split; [|split; assumption].
  unfold generate_dispute.check_validator_stake.
  rewrite (bind_run _ _ _ _ _ E).
  destruct (balance_in w address <? settings.VALIDATOR_STAKING); [reflexivity|].
  destruct (negb (bool_decide (staking_amount = settings.VALIDATOR_STAKING)));
    reflexivity.
Qed.

(** The CID check never answers that the claim is there: for a claim of
    the registry it reads [claim.prep_CID] and raises. *)
Lemma check_claim_exists_eq w claim_id expected_prep_CID :
  generate_dispute.check_claim_exists_and_verify_CID claim_id expected_prep_CID w
  = (w, match claim_of w claim_id with
        | None => Ok (Pair false (No_claim_found claim_id))
        | Some _ => Raise AttributeError
        end).
Proof.
  unfold generate_dispute.check_claim_exists_and_verify_CID.
  rewrite (bind_run _ _ _ _ _ (in_claims_get_claim _ _)).
  destruct (claim_of w claim_id); reflexivity.
Qed.

(** What [handle_dispute] does, in every state and on every input. *)
Lemma handle_dispute_eq now md p w :
  exists w',
    unchanged w w' /\ outputs w' = outputs w
    /\ generate_dispute.handle_dispute now md p w
       = if balance_in w (msg_sender md) <? settings.VALIDATOR_STAKING
         then (mkWorld (bank w') (claimsdb w') (usersdb w')
                 (outputs w' ++ [report Insufficient_funds_for_staking]), Ok false)
         else if negb (bool_decide (di_staking_amount p = settings.VALIDATOR_STAKING))
         then (mkWorld (bank w') (claimsdb w') (usersdb w')
                 (outputs w' ++ [report Staking_Amount_is_not_equal]), Ok false)
         else match claim_of w (di_claimID p) with
              | None =>
                  (mkWorld (bank w') (claimsdb w') (usersdb w')
                     (outputs w' ++ [report (No_claim_found (di_claimID p))]), Ok false)
              | Some _ => (w', Raise AttributeError)
              end.
Proof.
  destruct (check_validator_stake_eq w (msg_sender md) (di_staking_amount p))
    as (w' & E & Hun & Hout).
  exists w'. split; [exact Hun|]. split; [exact Hout|].
  unfold generate_dispute.handle_dispute.
  rewrite (bind_run _ _ _ _ _ E).
  destruct (balance_in w (msg_sender md) <? settings.VALIDATOR_STAKING);
    [reflexivity|].
  destruct (negb (bool_decide (di_staking_amount p = settings.VALIDATOR_STAKING)));
    [reflexivity|].
  rewrite bind_unpack_pair. cbn [negb].
  assert (Hclaim : claim_of w' (di_claimID p) = claim_of w (di_claimID p)).
  { unfold claim_of. destruct Hun as (_ & -> & _). reflexivity. }
  destruct (claim_of w (di_claimID p)) as [claim|] eqn:Ec.
  - rewrite (bind_raise _ _ w' w' AttributeError); [reflexivity|].
    rewrite check_claim_exists_eq, Hclaim. reflexivity.
  - rewrite (bind_run _ _ w' w' (Pair false (No_claim_found (di_claimID p)))).
    + reflexivity.
    + rewrite check_claim_exists_eq, Hclaim. reflexivity.
Qed.

(** C1. Whatever Dispute trigger arrives in whatever state, the handler
    refuses it (it answers [False] or raises) and nothing observable has
    changed afterwards: every balance, the registry (so the claim's status
    and disputant) and the users (so every open set and counter) are as
    before.  On an existing claim with the stake in hand, the case of the
    claim, the handler stops at the CID check, which reads [claim.prep_CID]
    and raises [AttributeError] before the eligibility check, the stake
    transfer or [initiate_dispute] is reached. *)
Theorem dispute_refused_without_mutation now md p w :
  let r := generate_dispute.handle_dispute now md p w in
  unchanged w r.1
  /\ (r.2 = Ok false \/ r.2 = Raise AttributeError)
  /\ (forall claim,
        claim_of w (di_claimID p) = Some claim ->
        settings.VALIDATOR_STAKING <= balance_in w (msg_sender md) ->
        di_staking_amount p = settings.VALIDATOR_STAKING ->
        r.2 = Raise AttributeError
        /\ outputs r.1 = outputs w
        /\ claim_of r.1 (di_claimID p) = Some claim
        /\ balance_in r.1 (msg_sender md) = balance_in w (msg_sender md)).
Proof.
  intros r. subst r.
  destruct (handle_dispute_eq now md p w) as (w' & Hun & Hout & ->).
  split; [|split].
  - destruct (_ <? _); [exact Hun|].
    destruct (negb _); [exact Hun|].
    destruct (claim_of w (di_claimID p)); exact Hun.
  - destruct (_ <? _); [left; reflexivity|].
    destruct (negb _); [left; reflexivity|].
    destruct (claim_of w (di_claimID p)); [right|left]; reflexivity.
  - intros claim Hclaim Hbal Hstake.
    destruct (Z.ltb_spec (balance_in w (msg_sender md)) settings.VALIDATOR_STAKING);
      [lia|].
    rewrite bool_decide_eq_true_2 by exact Hstake. cbn [negb].
    rewrite Hclaim. cbn [fst snd].
    destruct Hun as (Hb & Hc & Hu).
    repeat split; [exact Hout | | apply Hb].
    unfold claim_of. rewrite Hc. exact Hclaim.
Qed.

(** The disputes that the specification's defect report is about, in the
    state with Alice's open claim 1: her own dispute of it is refused by
    the [AttributeError] and moves nothing. *)
Lemma dispute_refused_without_mutation_witness :
  let r := generate_dispute.handle_dispute 10 (mkMetadata alice 10)
             (mkDisputeInput 1 settings.VALIDATOR_STAKING "p1") one_claim in
  r.2 = Raise AttributeError
  /\ outputs r.1 = outputs one_claim
  /\ claim_of r.1 1
     = Some (mkClaim alice None 0 OPEN settings.COLLATERAL_AMOUNT usage_proof
               "comp" "p1" 0)
  /\ balance_in r.1 alice = balance_in one_claim alice.
Proof.
  apply (proj2 (proj2 (dispute_refused_without_mutation 10 (mkMetadata alice 10)
                         (mkDisputeInput 1 settings.VALIDATOR_STAKING "p1") one_claim))).
  - vm_compute. reflexivity.
  - vm_compute. discriminate.
  - reflexivity.
Defined.

(** ** The finalize and validate routes stop at an undeclared attribute *)

(** What [handle_finalize] does, in every state and on every input: an
    OPEN or DISPUTING claim makes it read [claim.last_edited]. *)
Lemma handle_finalize_eq now md p w :
  finalize_claim.handle_finalize now md p w
  = if bool_decide (fi_claimID p = 0) && bool_decide (fi_prep_CID p = "")
    then (reported w Not_enough_parameters, Raise (ValueError Not_enough_parameters))
    else match claim_of w (fi_claimID p) with
         | None => (reported w Claim_doesnt_exist, Raise (ValueError Claim_doesnt_exist))
         | Some claim =>
             if bool_decide (status claim = OPEN) || bool_decide (status claim = DISPUTING)
             then (w, Raise AttributeError)
             else (reported w Can_only_finalize_Open_or_Disputing,
                   Raise (ValueError Can_only_finalize_Open_or_Disputing))
         end.
Proof.
  unfold finalize_claim.handle_finalize.
  destruct (bool_decide (fi_claimID p = 0)), (bool_decide (fi_prep_CID p = ""));
    cbn [negb orb andb]; try reflexivity;
    (rewrite (bind_run _ _ _ _ _ (in_claims_get_claim _ _));
     destruct (claim_of w (fi_claimID p)) as [claim|]; [|reflexivity];
     destruct (bool_decide (status claim = OPEN)); [reflexivity|];
     destruct (bool_decide (status claim = DISPUTING)); reflexivity).
Qed.

(** What [handle_validate] does: an OPEN or DISPUTING claim makes it read
    [data.metadata.sender], so that [validate_and_finalize_claim] is never
    called. *)
Lemma handle_validate_eq lib now md p w :
  validate_and_finalize.handle_validate lib now md p w
  = if bool_decide (vi_claimID p = 0) || bool_decide (vi_preprocessed_data p = "")
    then (reported w Not_enough_parameters, Raise (ValueError Not_enough_parameters))
    else match claim_of w (vi_claimID p) with
         | None => (reported w Claim_doesnt_exist, Raise (ValueError Claim_doesnt_exist))
         | Some claim =>
             if bool_decide (status claim = OPEN) || bool_decide (status claim = DISPUTING)
             then (w, Raise AttributeError)
             else (reported w Can_only_validate_Open_and_Disputing,
                   Raise (ValueError Can_only_validate_Open_and_Disputing))
         end.
Proof.
  unfold validate_and_finalize.handle_validate.
  destruct (bool_decide (vi_claimID p = 0) || bool_decide (vi_preprocessed_data p = ""));
    [reflexivity|].
  rewrite (bind_run _ _ _ _ _ (in_claims_get_claim _ _)).
  destruct (claim_of w (vi_claimID p)) as [claim|]; [|reflexivity].
  destruct (bool_decide (status claim = OPEN) || bool_decide (status claim = DISPUTING));
    reflexivity.
Qed.


(** ** No trigger changes the registry *)

Lemma preserves_raise_bind {S A B} (P : S -> Prop) (e : exn) (k : A -> M S B) :
  preserves P (raise e ≫= k).
Proof. intros s Hs. exact Hs. Qed.

Lemma in_bank_keeps_registry {A} db (c : M BankDatabase A) :
  preserves (keeps_registry db) (in_bank c).
Proof. intros w Hw. unfold in_bank, zoom. destruct (c (bank w)); exact Hw. Qed.

Lemma in_users_keeps_registry {A} db (c : M UsersDatabase A) :
  preserves (keeps_registry db) (in_users c).
Proof. intros w Hw. unfold in_users, zoom. destruct (c (usersdb w)); exact Hw. Qed.

Lemma emit_keeps_registry db o : preserves (keeps_registry db) (emit o).
Proof. intros w Hw. exact Hw. Qed.

Lemma in_claims_find_keeps_registry db prep_CID :
  preserves (keeps_registry db) (in_claims (claims_db.get_claim_by_prep_CID prep_CID)).
Proof.
  intros w Hw. unfold in_claims, zoom, claims_db.get_claim_by_prep_CID. exact Hw.
Qed.

Lemma handle_keeps_registry lib t db : preserves (keeps_registry db) (handle lib t).
Proof.
  destruct t as [md d|md p|now md p|now md p|now md p|now md p]; simpl.
  - unfold register_deposit.default_handler,
      register_deposit.process_deposit_and_add_user.
    preserve_with
      ltac:(first [ apply in_bank_keeps_registry | apply in_users_keeps_registry
                  | apply emit_keeps_registry ]).
  - unfold withdraw.withdraw.
    preserve_with
      ltac:(first [ apply in_bank_keeps_registry | apply emit_keeps_registry ]).
  - unfold generate_claim.handle_claim, generate_claim.check_existing_claim,
      generate_claim.check_and_lock_funds, comp_proof.
    preserve_with
      ltac:(first [ apply preserves_raise_bind | apply in_bank_keeps_registry
                  | apply in_claims_find_keeps_registry | apply emit_keeps_registry ]).
  - intros w Hw. destruct (handle_dispute_eq now md p w) as (w' & Hun & _ & ->).
    destruct Hun as (_ & Hc & _). unfold keeps_registry in *.
    destruct (_ <? _); [simpl; congruence|].
    destruct (negb _); [simpl; congruence|].
    destruct (claim_of w (di_claimID p)); simpl; congruence.
  - intros w Hw. rewrite handle_finalize_eq.
    destruct (_ && _); [exact Hw|].
    destruct (claim_of w (fi_claimID p)); [|exact Hw].
    destruct (_ || _); exact Hw.
  - intros w Hw. rewrite handle_validate_eq.
    destruct (_ || _); [exact Hw|].
    destruct (claim_of w (vi_claimID p)); [|exact Hw].
    destruct (_ || _); exact Hw.
Qed.

Lemma run_keeps_registry lib ts w : claimsdb (run lib w ts) = claimsdb w.
Proof.
  revert w. induction ts as [|t ts IH]; intros w; simpl; [reflexivity|].
  rewrite IH. apply (handle_keeps_registry lib t (claimsdb w) w). reflexivity.
Qed.



(** ** Finalizing by timeout *)

(** C8 fails on the code.  Run by triggers, scenario C opens no claim:
    [handle_claim] locks Alice's collateral and then raises
    [AttributeError] at [payload.comp_proof], before [create_claim]; a
    Finalize of claim 1 finds no claim.  With the claim filed by the
    functions of the claim route themselves ([scenario_C]: OPEN, opened and
    last updated at 0), a Finalize at 29 and a Finalize at 30 both raise
    [AttributeError] at [claim.last_edited]: no report of the time left at
    29, no FINALIZED status and no credit at 30.  The same holds for every
    OPEN or DISPUTING claim of every state, at every time. *)
Theorem scenario_C_finalize (lib : Library) :
  let funded := run lib init [deposit_of alice settings.COLLATERAL_AMOUNT] in
  let opened := handle lib (open_claim_of 0 0 "p1") funded in
  let w := scenario_C in
  (opened.2 = Raise AttributeError
   /\ claims (claimsdb opened.1) = []
   /\ balance_in funded alice = settings.COLLATERAL_AMOUNT
   /\ balance_in opened.1 alice = 0
   /\ balance_in opened.1 settings.LOCKED_ASSET_ADDRESS = settings.COLLATERAL_AMOUNT
   /\ handle lib (finalize_at 30 30 1 "p1") opened.1
      = (reported opened.1 Claim_doesnt_exist, Raise (ValueError Claim_doesnt_exist)))
  /\ (settings.CLAIM_EPOCH = 30
      /\ claim_of w 1
         = Some (mkClaim alice None 0 OPEN settings.COLLATERAL_AMOUNT usage_proof
                   "comp" "p1" 0)
      /\ handle lib (finalize_at 29 29 1 "p1") w = (w, Raise AttributeError)
      /\ handle lib (finalize_at 30 30 1 "p1") w = (w, Raise AttributeError))
  /\ (forall now md p w claim,
        claim_of w (fi_claimID p) = Some claim ->
        status claim = OPEN \/ status claim = DISPUTING ->
        handle lib (Finalize now md p) w = (w, Raise AttributeError)
        \/ (fi_claimID p = 0 /\ fi_prep_CID p = "")).
Proof.
  split; [|split].
  - evaluate.
  - evaluate.
  - intros now md p w claim Hc Hs. simpl. rewrite handle_finalize_eq, Hc.
    destruct (bool_decide (fi_claimID p = 0)) eqn:E0;
      destruct (bool_decide (fi_prep_CID p = "")) eqn:E1; cbn [andb];
      try (left;
           destruct Hs as [-> | ->]; reflexivity).
    right. split; [apply bool_decide_eq_true in E0 | apply bool_decide_eq_true in E1];
      assumption.
Qed.

(** ** Validating a claim *)

Lemma validate_claim_eq lib preprocessed_data comp_proof w :
  validate_and_finalize.validate_claim lib preprocessed_data comp_proof w
  = (w, match validate_and_finalize.calculate_endpoint_usage lib preprocessed_data with
        | Ok calculated_hash => Ok (bool_decide (calculated_hash = comp_proof))
        | Raise e => Raise e
        end).
Proof.
  unfold validate_and_finalize.validate_claim, of_outcome, mbind, M_bind.
  destruct (validate_and_finalize.calculate_endpoint_usage lib preprocessed_data);
    reflexivity.
Qed.

Lemma validate_claim_matches lib preprocessed_data comp_proof w :
  validate_and_finalize.calculate_endpoint_usage lib preprocessed_data = Ok comp_proof ->
  validate_and_finalize.validate_claim lib preprocessed_data comp_proof w = (w, Ok true).
Proof.
  intros H. rewrite validate_claim_eq, H, bool_decide_eq_true_2 by reflexivity.
  reflexivity.
Qed.

Lemma validate_claim_differs lib preprocessed_data comp_proof calculated_hash w :
  validate_and_finalize.calculate_endpoint_usage lib preprocessed_data
  = Ok calculated_hash ->
  calculated_hash <> comp_proof ->
  validate_and_finalize.validate_claim lib preprocessed_data comp_proof w = (w, Ok false).
Proof.
  intros H Hne. rewrite validate_claim_eq, H, bool_decide_eq_false_2 by exact Hne.
  reflexivity.
Qed.

(** The Validate trigger on an OPEN or DISPUTING claim. *)
Lemma handle_validate_raises lib now md p w claim :
  claim_of w (vi_claimID p) = Some claim ->
  status claim = OPEN \/ status claim = DISPUTING ->
  vi_claimID p <> 0 -> vi_preprocessed_data p <> "" ->
  validate_and_finalize.handle_validate lib now md p w = (w, Raise AttributeError).
Proof.
  intros Hc Hs H0 H1. rewrite handle_validate_eq, Hc.
  rewrite (bool_decide_eq_false_2 _ H0), (bool_decide_eq_false_2 _ H1). cbn [orb].
  destruct Hs as [-> | ->]; reflexivity.
Qed.

(** C3 fails on the code.  The Validate trigger itself pays nothing: on
    an OPEN or DISPUTING claim the handler raises [AttributeError] at
    [data.metadata.sender], before it calls [validate_and_finalize_claim].
    That function, called with a matching proof on Alice's open and
    undisputed claim 1, transfers collateral + stake + incentive where her
    open claims hold the integer key ([integer_keys]), although nobody
    posted a stake; where they hold the key as the claim route files it
    ([one_claim]) it sets VALIDATED and raises [KeyError] before the
    transfer; and on the disputed claim ([disputed]) it raises [KeyError]
    on the disputant's open claims before anything else. *)
Theorem validated_open_claim_payout (lib : Library) :
  (forall now md p w claim,
      claim_of w (vi_claimID p) = Some claim ->
      status claim = OPEN \/ status claim = DISPUTING ->
      vi_claimID p <> 0 -> vi_preprocessed_data p <> "" ->
      handle lib (Validate now md p) w = (w, Raise AttributeError))
  /\ (forall now preprocessed_data timestamp comp_proof,
        validate_and_finalize.calculate_endpoint_usage lib preprocessed_data
        = Ok comp_proof ->
        let call :=
          validate_and_finalize.validate_and_finalize_claim lib now 1
            preprocessed_data timestamp comp_proof in
        let r := call integer_keys in
        let r' := call one_claim in
        let r'' := call disputed in
        ((status <$> claim_of integer_keys 1) = Some OPEN
         /\ (disputing_user_address <$> claim_of integer_keys 1) = Some None
         /\ r.2 = Ok (true, Claim_validated 1)
         /\ (status <$> claim_of r.1 1) = Some VALIDATED
         /\ balance_in r.1 alice - balance_in integer_keys alice
            = settings.COLLATERAL_AMOUNT + settings.VALIDATOR_STAKING
              + settings.CLAIM_INCENTIVE
         /\ balance_in r.1 alice - balance_in integer_keys alice
            <> settings.COLLATERAL_AMOUNT + settings.CLAIM_INCENTIVE)
        /\ ((status <$> claim_of one_claim 1) = Some OPEN
            /\ r'.2 = Raise (KeyError (KInt 1))
            /\ (status <$> claim_of r'.1 1) = Some VALIDATED
            /\ balance_in r'.1 alice = balance_in one_claim alice)
        /\ ((status <$> claim_of disputed 1) = Some DISPUTING
            /\ (disputing_user_address <$> claim_of disputed 1) = Some (Some bob)
            /\ r''.2 = Raise (KeyError (KInt 1))
            /\ (status <$> claim_of r''.1 1) = Some DISPUTING
            /\ balance_in r''.1 alice = balance_in disputed alice)).
Proof.
  split.
  - intros now md p w claim. apply handle_validate_raises.
  - intros now data ts proof H call r r' r''. subst r r' r'' call.
    unfold validate_and_finalize.validate_and_finalize_claim.
    rewrite !(bind_run _ _ _ _ _ (validate_claim_matches lib data proof _ H)).
    evaluate.
Qed.

(** C6 fails on the code.  The Validate trigger leaves the claim OPEN
    (see C3).  [validate_and_finalize_claim], called with a proof that
    differs from the digest on Alice's open claim 1, has no case for a
    claim without disputant: in [integer_keys] it sets CONTRADICTED,
    debits the pool by collateral + stake + incentive and raises
    [AttributeError] on the deposit to the disputant [None], so that the
    amount is credited to nobody; in [one_claim] it sets CONTRADICTED and
    raises [KeyError] on her open claims, and the collateral stays in the
    pool. *)
Theorem contradicted_open_claim_payout (lib : Library) :
  (forall now md p w claim,
      claim_of w (vi_claimID p) = Some claim ->
      status claim = OPEN \/ status claim = DISPUTING ->
      vi_claimID p <> 0 -> vi_preprocessed_data p <> "" ->
      let r := handle lib (Validate now md p) w in
      r.2 = Raise AttributeError /\ claim_of r.1 (vi_claimID p) = Some claim
      /\ bank r.1 = bank w)
  /\ (forall now preprocessed_data timestamp comp_proof calculated_hash,
        validate_and_finalize.calculate_endpoint_usage lib preprocessed_data
        = Ok calculated_hash ->
        calculated_hash <> comp_proof ->
        let call :=
          validate_and_finalize.validate_and_finalize_claim lib now 1
            preprocessed_data timestamp comp_proof in
        let r := call integer_keys in
        let r' := call one_claim in
        ((status <$> claim_of integer_keys 1) = Some OPEN
         /\ (disputing_user_address <$> claim_of integer_keys 1) = Some None
         /\ r.2 = Raise AttributeError
         /\ (status <$> claim_of r.1 1) = Some CONTRADICTED
         /\ balance_in integer_keys settings.LOCKED_ASSET_ADDRESS
            - balance_in r.1 settings.LOCKED_ASSET_ADDRESS
            = settings.COLLATERAL_AMOUNT + settings.VALIDATOR_STAKING
              + settings.CLAIM_INCENTIVE
         /\ dom (wallets (bank r.1)) = {[ lower settings.LOCKED_ASSET_ADDRESS ]})
        /\ ((disputing_user_address <$> claim_of one_claim 1) = Some None
            /\ r'.2 = Raise (KeyError (KInt 1))
            /\ (status <$> claim_of r'.1 1) = Some CONTRADICTED
            /\ balance_in r'.1 settings.LOCKED_ASSET_ADDRESS
               = balance_in one_claim settings.LOCKED_ASSET_ADDRESS)).
Proof.
  split.
  - intros now md p w claim Hc Hs H0 H1 r. subst r. simpl.
    rewrite (handle_validate_raises lib now md p w claim Hc Hs H0 H1).
    repeat split. exact Hc.
  - intros now data ts proof h H Hne call r r'. subst r r' call.
    unfold validate_and_finalize.validate_and_finalize_claim.
    rewrite !(bind_run _ _ _ _ _ (validate_claim_differs lib data proof h _ H Hne)).
    evaluate.
Qed.

(** ** The ids in a user's open claims *)

Lemma lookup_alter_present (f : User -> User) (m : gmap string User) k :
  alter f k m !! k = f <$> m !! k.
Proof. rewrite lookup_alter, decide_True by reflexivity. reflexivity. Qed.

(** [update_user_open_claims] files the id of a new claim under its text,
    [str(new_claim_id)], and touches nothing else. *)
Lemma update_user_open_claims_effect w user_wallet_address new_claim_id :
  exists users',
    generate_claim.update_user_open_claims user_wallet_address new_claim_id w
    = (mkWorld (bank w) (claimsdb w) (mkUsers users') (outputs w), Ok tt)
    /\ users' !! user_wallet_address
       = (fun u => set_open_claims ({[KStr (str new_claim_id)]} ∪ open_claims u) u)
           <$> users (usersdb w) !! user_wallet_address
    /\ forall u, u <> user_wallet_address -> users' !! u = users (usersdb w) !! u.
Proof.
  destruct w as [b c [u] o].
  unfold generate_claim.update_user_open_claims, in_users, zoom, users_db.update_user,
    users_db.get_user, users_db.mutate, modify, mbind, M_bind.
  cbn [bank claimsdb usersdb outputs users option_bind fst snd].
  simpl (Some user_wallet_address ≫= _).
  destruct (u !! user_wallet_address) as [user|] eqn:Hu; cbn [from_option].
  - cbn [bank claimsdb usersdb outputs users fst snd].
    simpl (Some user_wallet_address ≫= _).
    rewrite !lookup_alter_present, Hu.
    cbn [fmap option_fmap option_map from_option foldl setattr users].
    eexists. split; [reflexivity|]. split.
    + rewrite !lookup_alter_present, Hu. reflexivity.
    + intros u' Hne. rewrite !lookup_alter_ne by congruence. reflexivity.
  - eexists. split; [reflexivity|]. split; [rewrite Hu; reflexivity | reflexivity].
Qed.

(** [won_claim] and [lost_claim] on an id that the user's open claims do
    not hold: the counters are already incremented when [del] raises
    [KeyError], and the open claims are as they were. *)
Lemma claim_outcome_missing_key (db : UsersDatabase) user_id user claimID :
  users db !! user_id = Some user -> claimID ∉ open_claims user ->
  users_db.won_claim (Some user_id) claimID db
  = (mkUsers (<[user_id :=
                 mkUser (open_claims user) (open_disputes user)
                        (total_disputes user) (won_disputes user)
                        (total_claims user + 1) (correct_claims user + 1)]>
               (users db)),
     Raise (KeyError claimID))
  /\ users_db.lost_claim (Some user_id) claimID db
     = (mkUsers (<[user_id :=
                    mkUser (open_claims user) (open_disputes user)
                           (total_disputes user) (won_disputes user)
                           (total_claims user + 1) (correct_claims user)]>
                  (users db)),
        Raise (KeyError claimID)).
Proof.
  intros Hu Hout. split.
  - unfold users_db.won_claim, users_db.del_open_claims, users_db.mutate,
      users_db.get_user, modify, mbind, M_bind. simpl. rewrite Hu. simpl.
    rewrite decide_False by exact Hout. simpl.
    rewrite !alter_alter_eq, (alter_alt_Some _ _ user_id user) by exact Hu.
    reflexivity.
  - unfold users_db.lost_claim, users_db.del_open_claims, users_db.mutate,
      users_db.get_user, modify, mbind, M_bind. simpl. rewrite Hu. simpl.
    rewrite decide_False by exact Hout. simpl.
    rewrite (alter_alt_Some _ _ user_id user) by exact Hu.
    reflexivity.
Qed.

(** C4 fails on the code.  The claim route files a new id in the
    claimant's open claims under its text, [str(new_claim_id)]; the code
    that takes ids out is handed the integer [payload.claimID], another
    dictionary key.  So for a user whose open claims hold text keys only,
    [won_claim] and [lost_claim] on the integer id raise [KeyError] and
    leave the text key in place; and [validate_and_finalize_claim], called
    on Alice's open claim 1 with a matching proof, sets the claim VALIDATED
    and leaves "1" in her open claims.  The Finalize trigger never gets
    that far: on an OPEN claim it raises [AttributeError] at
    [claim.last_edited], so that no Finalize of an OPEN claim succeeds. *)
Theorem open_claim_id_outlives_claim (lib : Library) :
  (forall w user_wallet_address new_claim_id user,
      user_of w user_wallet_address = Some user ->
      open_claims_of
        (generate_claim.update_user_open_claims user_wallet_address new_claim_id w).1
        user_wallet_address
      = {[KStr (str new_claim_id)]} ∪ open_claims user)
  /\ (forall db user_id user claimID,
        users db !! user_id = Some user ->
        KInt claimID ∉ open_claims user ->
        let won := users_db.won_claim (Some user_id) (KInt claimID) db in
        let lost := users_db.lost_claim (Some user_id) (KInt claimID) db in
        won.2 = Raise (KeyError (KInt claimID))
        /\ lost.2 = Raise (KeyError (KInt claimID))
        /\ (open_claims <$> users won.1 !! user_id) = Some (open_claims user)
        /\ (open_claims <$> users lost.1 !! user_id) = Some (open_claims user))
  /\ (forall now preprocessed_data timestamp comp_proof,
        validate_and_finalize.calculate_endpoint_usage lib preprocessed_data
        = Ok comp_proof ->
        let r := validate_and_finalize.validate_and_finalize_claim lib now 1
                   preprocessed_data timestamp comp_proof one_claim in
        open_claims_of one_claim alice = {[KStr (str 1)]}
        /\ r.2 = Raise (KeyError (KInt 1))
        /\ (status <$> claim_of r.1 1) = Some VALIDATED
        /\ terminal VALIDATED = true
        /\ open_claims_of r.1 alice = {[KStr (str 1)]})
  /\ (forall now t,
        (status <$> claim_of two_claims 1) = Some OPEN
        /\ open_claims_of two_claims alice = {[KStr (str 1); KStr (str 2)]}
        /\ handle lib (finalize_at now t 1 "p1") two_claims
           = (two_claims, Raise AttributeError)).
Proof.
  split; [|split; [|split]].
  - intros w a i user Hu.
    destruct (update_user_open_claims_effect w a i) as (users' & -> & Hfiled & _).
    unfold open_claims_of, user_of in *. cbn [fst usersdb users].
    rewrite Hfiled, Hu. reflexivity.
  - intros db user_id user claimID Hu Hout won lost. subst won lost.
    destruct (claim_outcome_missing_key db user_id user (KInt claimID) Hu Hout)
      as [-> ->].
    cbn [fst snd users]. rewrite !lookup_insert_eq. repeat split.
  - intros now data ts proof H r. subst r.
    unfold validate_and_finalize.validate_and_finalize_claim.
    rewrite (bind_run _ _ _ _ _ (validate_claim_matches lib data proof _ H)).
    repeat apply conj; try (vm_compute; reflexivity).
  - intros now t. repeat apply conj; try (vm_compute; reflexivity).
Qed.

(** ** The digest of the telemetry *)

Lemma usage_rows_permuted : usage_rows ≡ₚ usage_rows_reordered.
Proof. unfold usage_rows, usage_rows_reordered. apply perm_skip, perm_swap. Qed.

Lemma usage_sums_differ :
  validate_and_finalize.groupby_sum usage_rows
  <> validate_and_finalize.groupby_sum usage_rows_reordered.
Proof.
  intros H.
  apply (f_equal (fun grouped_data =>
                    match grouped_data with
                    | [(_, total)] => PrimFloat.eqb total 0.6
                    | _ => false
                    end)) in H.
  vm_compute in H. discriminate H.
Qed.

Lemma calculate_endpoint_usage_eq lib csv_data data :
  read_csv lib csv_data = Ok data ->
  validate_and_finalize.calculate_endpoint_usage lib csv_data
  = Ok (sha256_hexdigest lib
          (to_csv lib
             (validate_and_finalize.groupby_sum
                (filter (fun row => type row = "Endpoint") data)))).
Proof.
  intros H. unfold validate_and_finalize.calculate_endpoint_usage. rewrite H.
  reflexivity.
Qed.

(** C5 fails on the code.  [usage_rows] and [usage_rows_reordered] hold
    the same three rows of sensor 1, with the readings 0.1, 0.4, 0.1 and
    0.1, 0.1, 0.4.  The sum of the group is computed in the order of the
    rows, in binary64: it is 0.6 for the first table and
    0.6000000000000001 for the second, with the running compensation of
    [groupby(...).sum()] and with a plain addition from left to right
    alike.  The grouped tables differ, and with every library whose
    serialisation and digest tell the two apart the digests differ: a
    proof that validates the first payload is turned down on the second. *)
Theorem digest_depends_on_row_order :
  usage_rows ≡ₚ usage_rows_reordered
  /\ validate_and_finalize.groupby_sum usage_rows = [(1, 0.6%float)]
  /\ validate_and_finalize.groupby_sum usage_rows_reordered
     = [(1, 0.6000000000000001%float)]
  /\ validate_and_finalize.groupby_sum usage_rows
     <> validate_and_finalize.groupby_sum usage_rows_reordered
  /\ foldl PrimFloat.add 0%float (map water_usage usage_rows) = 0.6%float
  /\ foldl PrimFloat.add 0%float (map water_usage usage_rows_reordered)
     = 0.6000000000000001%float
  /\ (forall (lib : Library) (csv_data csv_data' : string),
        read_csv lib csv_data = Ok usage_rows ->
        read_csv lib csv_data' = Ok usage_rows_reordered ->
        sha256_hexdigest lib (to_csv lib [(1, 0.6%float)])
        <> sha256_hexdigest lib (to_csv lib [(1, 0.6000000000000001%float)]) ->
        validate_and_finalize.calculate_endpoint_usage lib csv_data
        <> validate_and_finalize.calculate_endpoint_usage lib csv_data'
        /\ forall comp_proof w,
             validate_and_finalize.calculate_endpoint_usage lib csv_data
             = Ok comp_proof ->
             (validate_and_finalize.validate_claim lib csv_data comp_proof w).2
             = Ok true
             /\ (validate_and_finalize.validate_claim lib csv_data' comp_proof w).2
                = Ok false).
Proof.
  assert (Ha : validate_and_finalize.groupby_sum
                 (filter (fun row => type row = "Endpoint") usage_rows)
               = [(1, 0.6%float)]) by (vm_compute; reflexivity).
  assert (Hb : validate_and_finalize.groupby_sum
                 (filter (fun row => type row = "Endpoint") usage_rows_reordered)
               = [(1, 0.6000000000000001%float)]) by (vm_compute; reflexivity).
  split; [exact usage_rows_permuted|].
  split; [vm_compute; reflexivity|].
  split; [vm_compute; reflexivity|].
  split; [exact usage_sums_differ|].
  split; [vm_compute; reflexivity|].
  split; [vm_compute; reflexivity|].
  intros lib csv_data csv_data' Hread Hread' Hdiffer.
  rewrite (calculate_endpoint_usage_eq lib _ _ Hread),
    (calculate_endpoint_usage_eq lib _ _ Hread'), Ha, Hb.
  split; [congruence|].
  intros comp_proof w [= <-].
  rewrite !validate_claim_eq, (calculate_endpoint_usage_eq lib _ _ Hread),
    (calculate_endpoint_usage_eq lib _ _ Hread'), Ha, Hb.
  cbn [snd]. rewrite bool_decide_eq_true_2 by reflexivity.
  rewrite bool_decide_eq_false_2 by congruence. split; reflexivity.
Qed.

(** The two payloads as CSV texts, with a library that reads them: the
    digest of the first validates it and is turned down on the second. *)
Lemma digest_depends_on_row_order_witness :
  validate_and_finalize.calculate_endpoint_usage scenario_library usage_csv
  = Ok usage_proof
  /\ validate_and_finalize.calculate_endpoint_usage scenario_library usage_csv
     <> validate_and_finalize.calculate_endpoint_usage scenario_library
          usage_csv_reordered
  /\ (validate_and_finalize.validate_claim scenario_library usage_csv usage_proof
        init).2 = Ok true
  /\ (validate_and_finalize.validate_claim scenario_library usage_csv_reordered
        usage_proof init).2 = Ok false.
Proof.
  destruct digest_depends_on_row_order as (_ & _ & _ & _ & _ & _ & H).
  destruct (H scenario_library usage_csv usage_csv_reordered) as [Hne Hvalid].
  - vm_compute. reflexivity.
  - vm_compute. reflexivity.
  - vm_compute. discriminate.
  - split; [vm_compute; reflexivity|]. split; [exact Hne|].
    apply (Hvalid usage_proof init). vm_compute. reflexivity.
Defined.

(** ** Stepping through the databases *)

Lemma dict_get_set_eq {V} (d : list (Z * V)) k v :
  dict_get (dict_set d k v) k = Some v.
Proof.
  induction d as [|[k' v'] d IH]; simpl.
  - rewrite decide_True by reflexivity. reflexivity.
  - destruct (decide (k' = k)) as [->|Hne]; simpl.
    + rewrite decide_True by reflexivity. reflexivity.
    + rewrite decide_False by exact Hne. exact IH.
Qed.

Lemma dict_set_set {V} (d : list (Z * V)) k v v' :
  dict_set (dict_set d k v) k v' = dict_set d k v'.
Proof.
  induction d as [|[k' x] d IH]; simpl.
  - rewrite decide_True by reflexivity. reflexivity.
  - destruct (decide (k' = k)) as [->|Hne]; simpl.
    + rewrite decide_True by reflexivity. reflexivity.
    + rewrite decide_False by exact Hne. rewrite IH. reflexivity.
Qed.

Lemma mutate_present claim_id f db claim :
  dict_get (claims db) claim_id = Some claim ->
  claims_db.mutate claim_id f db
  = (mkClaims (dict_set (claims db) claim_id (f claim)) (next_claim_id db), Ok tt).
Proof.
  intros Hc. unfold claims_db.mutate, modify. rewrite Hc. reflexivity.
Qed.

Lemma initiate_dispute_present now claim_id party db claim :
  dict_get (claims db) claim_id = Some claim ->
  let claim' := set_lastUpdated now (set_status DISPUTING
                  (set_disputing_user_address (Some party) claim)) in
  claims_db.initiate_dispute now claim_id party db
  = (mkClaims (dict_set (claims db) claim_id claim') (next_claim_id db), Ok (Some claim')).
Proof.
  intros Hc claim'. unfold claims_db.initiate_dispute.
  rewrite (bind_run _ _ db db (Some claim)) by (unfold claims_db.get_claim; rewrite Hc; reflexivity).
  rewrite (bind_run _ _ _ _ _ (mutate_present _ _ _ _ Hc)).
  rewrite (bind_run _ _ _ _ _
             (mutate_present _ _ (mkClaims _ _) _ (dict_get_set_eq _ _ _))).
  rewrite (bind_run _ _ _ _ _
             (mutate_present _ _ (mkClaims _ _) _ (dict_get_set_eq _ _ _))).
  unfold claims_db.get_claim. simpl. rewrite !dict_set_set, dict_get_set_eq.
  reflexivity.
Qed.

Lemma withdraw_present db address amount wallet :
  wallets db !! lower address = Some wallet ->
  0 < amount <= balance wallet ->
  bank_db.withdraw (Some address) amount db
  = (mkBank (<[lower address := mkWallet (owner wallet) (balance wallet - amount)]>
               (wallets db)), Ok tt).
Proof.
  intros Hw [Hpos Hle]. unfold bank_db.withdraw.
  destruct (Z.leb_spec amount 0); [lia|].
  unfold mbind, M_bind. simpl. rewrite Hw. simpl.
  destruct (Z.ltb_spec (balance wallet) amount); [lia|]. reflexivity.
Qed.

Lemma in_bank_run {A} (c : M BankDatabase A) w db' r :
  c (bank w) = (db', r) ->
  in_bank c w = (mkWorld db' (claimsdb w) (usersdb w) (outputs w), r).
Proof. intros H. unfold in_bank, zoom. rewrite H. reflexivity. Qed.

(** ** The ledger, method by method *)

Lemma bind_ok {S A B} (c : M S A) (k : A -> M S B) (s : S) (a : A) :
  (c s).2 = Ok a -> (c ≫= k) s = k a (c s).1.
Proof. unfold mbind, M_bind. destruct (c s) as [s' r]. simpl. intros ->. reflexivity. Qed.

Lemma bind_err {S A B} (c : M S A) (k : A -> M S B) (s : S) (e : exn) :
  (c s).2 = Raise e -> (c ≫= k) s = ((c s).1, Raise e).
Proof. unfold mbind, M_bind. destruct (c s) as [s' r]. simpl. intros ->. reflexivity. Qed.

Lemma deposit_observed db address amount :
  0 < amount ->
  (bank_db.deposit (Some address) amount db).2 = Ok tt
  /\ forall a, balance_of (bank_db.deposit (Some address) amount db).1 a
               = if decide (lower a = lower address)
                 then balance_of db a + amount else balance_of db a.
Proof.
  intros Hpos. unfold bank_db.deposit. destruct (Z.leb_spec amount 0); [lia|].
  unfold mbind, M_bind, bank_db.set_balance, modify, balance_of. simpl.
  destruct (wallets db !! lower address) as [wallet|] eqn:E; simpl.
  - split; [reflexivity|]. intros a. rewrite lookup_insert.
    destruct (decide (lower a = lower address)) as [->|Hne].
    + rewrite decide_True by reflexivity. rewrite E. reflexivity.
    + rewrite decide_False by congruence. reflexivity.
  - split; [reflexivity|]. intros a. rewrite insert_insert_eq, lookup_insert.
    destruct (decide (lower a = lower address)) as [->|Hne].
    + rewrite decide_True by reflexivity. rewrite E. reflexivity.
    + rewrite decide_False by congruence. reflexivity.
Qed.

Lemma withdraw_observed db address amount :
  0 < amount <= balance_of db address ->
  (bank_db.withdraw (Some address) amount db).2 = Ok tt
  /\ forall a, balance_of (bank_db.withdraw (Some address) amount db).1 a
               = if decide (lower a = lower address)
                 then balance_of db a - amount else balance_of db a.
Proof.
  intros [Hpos Hle]. unfold balance_of in Hle.
  destruct (wallets db !! lower address) as [wallet|] eqn:E; [|lia].
  rewrite (withdraw_present db address amount wallet E (conj Hpos Hle)).
  split; [reflexivity|]. intros a. unfold balance_of. simpl. rewrite lookup_insert.
  destruct (decide (lower a = lower address)) as [->|Hne].
  - rewrite decide_True by reflexivity. rewrite E. reflexivity.
  - rewrite decide_False by congruence. reflexivity.
Qed.

(** X1. A transfer of a positive amount that the sender holds, between
    two different wallets, returns: the sender shows the amount less, the
    receiver the amount more, and every other balance is as before. *)
Theorem transfer_moves_amount db sender receiver amount :
  0 < amount <= balance_of db sender ->
  lower sender <> lower receiver ->
  let r := bank_db.transfer (Some sender) (Some receiver) amount db in
  r.2 = Ok tt
  /\ balance_of r.1 sender = balance_of db sender - amount
  /\ balance_of r.1 receiver = balance_of db receiver + amount
  /\ forall a, lower a <> lower sender -> lower a <> lower receiver ->
               balance_of r.1 a = balance_of db a.
Proof.
  intros Hamount Hne r. subst r. unfold bank_db.transfer.
  destruct (Z.leb_spec amount 0); [lia|].
  destruct (withdraw_observed db sender amount Hamount) as [Hw1 Hw2].
  rewrite (bind_ok _ _ _ _ Hw1).
  destruct (deposit_observed (bank_db.withdraw (Some sender) amount db).1
              receiver amount (proj1 Hamount)) as [Hd1 Hd2].
  split; [exact Hd1|]. rewrite !Hd2, !Hw2.
  rewrite (decide_False (P := lower sender = lower receiver)) by exact Hne.
  rewrite !(decide_True (P := lower sender = lower sender)) by reflexivity.
  rewrite !(decide_True (P := lower receiver = lower receiver)) by reflexivity.
  rewrite (decide_False (P := lower receiver = lower sender)) by congruence.
  repeat split; try reflexivity.
  intros a Ha1 Ha2. rewrite Hd2, Hw2.
  rewrite decide_False by exact Ha2. rewrite decide_False by exact Ha1. reflexivity.
Qed.

Lemma transfer_moves_amount_witness :
  (bank_db.transfer (Some alice) (Some bob) 5 (bank one_claim)).2 = Ok tt.
Proof.
  refine (proj1 (transfer_moves_amount (bank one_claim) alice bob 5
                  _ _)); evaluate.
Defined.

(** X2. A transfer between two addresses of one wallet (they agree up
    to the case of their letters) returns and leaves every balance as it
    was. *)
Theorem transfer_to_self_changes_nothing db sender receiver amount :
  0 < amount <= balance_of db sender ->
  lower sender = lower receiver ->
  let r := bank_db.transfer (Some sender) (Some receiver) amount db in
  r.2 = Ok tt /\ forall a, balance_of r.1 a = balance_of db a.
Proof.
  intros Hamount Heq r. subst r. unfold bank_db.transfer.
  destruct (Z.leb_spec amount 0); [lia|].
  destruct (withdraw_observed db sender amount Hamount) as [Hw1 Hw2].
  rewrite (bind_ok _ _ _ _ Hw1).
  destruct (deposit_observed (bank_db.withdraw (Some sender) amount db).1
              receiver amount (proj1 Hamount)) as [Hd1 Hd2].
  split; [exact Hd1|]. intros a. rewrite Hd2, Hw2, Heq.
  case_decide; lia.
Qed.

Lemma transfer_to_self_changes_nothing_witness :
  (bank_db.transfer (Some alice) (Some "0xA11CE") 5 (bank one_claim)).2 = Ok tt.
Proof.
  refine (proj1 (transfer_to_self_changes_nothing (bank one_claim) alice "0xA11CE" 5
                  _ _)); evaluate.
Defined.

(** X3. A transfer of a positive amount that the sender does not hold
    raises "insufficient funds" and changes no balance, whoever the
    receiver is. *)
Theorem transfer_insufficient_changes_nothing db sender receiver amount :
  0 < amount -> balance_of db sender < amount ->
  let r := bank_db.transfer (Some sender) receiver amount db in
  r.2 = Raise (Exception insufficient_funds)
  /\ forall a, balance_of r.1 a = balance_of db a.
Proof.
  intros Hpos Hlt r. subst r. unfold bank_db.transfer.
  destruct (Z.leb_spec amount 0); [lia|].
  destruct (withdraw_insufficient db sender amount Hpos Hlt) as [H1 H2].
  rewrite (bind_err _ _ _ _ H1). split; [reflexivity | exact H2].
Qed.

Lemma transfer_insufficient_changes_nothing_witness :
  (bank_db.transfer (Some bob) (Some alice) 5 (bank one_claim)).2
  = Raise (Exception insufficient_funds).
Proof.
  refine (proj1 (transfer_insufficient_changes_nothing (bank one_claim) bob (Some alice) 5
                  _ _)); evaluate.
Defined.

(** X4. [transfer] has no rollback: with the receiver [None] it raises
    [AttributeError] after the withdrawal, so that the sender is debited
    and nobody is credited. *)
Theorem transfer_to_nobody_debits_sender db sender amount :
  0 < amount <= balance_of db sender ->
  let r := bank_db.transfer (Some sender) None amount db in
  r.2 = Raise AttributeError
  /\ balance_of r.1 sender = balance_of db sender - amount
  /\ forall a, lower a <> lower sender -> balance_of r.1 a = balance_of db a.
Proof.
  intros Hamount r. subst r. unfold bank_db.transfer.
  destruct (Z.leb_spec amount 0); [lia|].
  destruct (withdraw_observed db sender amount Hamount) as [Hw1 Hw2].
  rewrite (bind_ok _ _ _ _ Hw1).
  unfold bank_db.deposit. destruct (Z.leb_spec amount 0); [lia|].
  simpl. split; [reflexivity|]. split.
  - rewrite Hw2, decide_True by reflexivity. reflexivity.
  - intros a Ha. rewrite Hw2, decide_False by exact Ha. reflexivity.
Qed.

Lemma transfer_to_nobody_debits_sender_witness :
  (bank_db.transfer (Some alice) None 5 (bank one_claim)).2 = Raise AttributeError.
Proof.
  refine (proj1 (transfer_to_nobody_debits_sender (bank one_claim) alice 5
                  _)); evaluate.
Defined.

(** X5. A deposit followed by a withdrawal of the same amount at the
    same address returns and restores every balance. *)
Theorem deposit_then_withdraw_restores db address amount :
  0 < amount -> 0 <= balance_of db address ->
  let r := (bank_db.deposit (Some address) amount;;
            bank_db.withdraw (Some address) amount) db in
  r.2 = Ok tt /\ forall a, balance_of r.1 a = balance_of db a.
Proof.
  intros Hpos Hnonneg r. subst r.
  destruct (deposit_observed db address amount Hpos) as [Hd1 Hd2].
  rewrite (bind_ok _ _ _ _ Hd1).
  destruct (withdraw_observed (bank_db.deposit (Some address) amount db).1
              address amount) as [Hw1 Hw2].
  { rewrite Hd2, decide_True by reflexivity. lia. }
  split; [exact Hw1|]. intros a. rewrite Hw2, Hd2. case_decide; lia.
Qed.

Lemma deposit_then_withdraw_restores_witness :
  ((bank_db.deposit (Some bob) 5;; bank_db.withdraw (Some bob) 5) (bank one_claim)).2
  = Ok tt.
Proof.
  refine (proj1 (deposit_then_withdraw_restores (bank one_claim) bob 5
                  _ _)); evaluate.
Defined.

(** X6. [deposit] refuses an amount that is not positive with "invalid
    amount" and changes nothing; a positive amount is added to the balance
    of the address, and no other balance moves. *)
Theorem deposit_effect db address amount :
  (amount <= 0 ->
   bank_db.deposit address amount db = (db, Raise (Exception invalid_amount)))
  /\ (0 < amount -> forall who, address = Some who ->
      let r := bank_db.deposit address amount db in
      r.2 = Ok tt
      /\ balance_of r.1 who = balance_of db who + amount
      /\ forall a, lower a <> lower who -> balance_of r.1 a = balance_of db a).
Proof.
  split.
  - intros Hle. unfold bank_db.deposit. destruct (Z.leb_spec amount 0); [reflexivity|lia].
  - intros Hpos who -> r. subst r.
    destruct (deposit_observed db who amount Hpos) as [Hd1 Hd2].
    split; [exact Hd1|]. split.
    + rewrite Hd2, decide_True by reflexivity. reflexivity.
    + intros a Ha. rewrite Hd2, decide_False by exact Ha. reflexivity.
Qed.

Lemma lower_ascii_idempotent c : lower_ascii (lower_ascii c) = lower_ascii c.
Proof. destruct c as [[] [] [] [] [] [] [] []]; reflexivity. Qed.

Lemma lower_idempotent s : lower (lower s) = lower s.
Proof.
  induction s as [|c s IH]; simpl; [reflexivity|].
  rewrite lower_ascii_idempotent, IH. reflexivity.
Qed.

(** X7. [balance] answers what the address holds and changes no
    balance; it leaves the ledger as it is when the wallet exists, reads
    the address in lower case, and raises [AttributeError] for [None]. *)
Theorem balance_reads_only db address :
  let r := bank_db.balance (Some address) db in
  r.2 = Ok (balance_of db address)
  /\ (forall a, balance_of r.1 a = balance_of db a)
  /\ (is_Some (wallets db !! lower address) -> r.1 = db)
  /\ bank_db.balance (Some (lower address)) db = r
  /\ bank_db.balance None db = (db, Raise AttributeError).
Proof.
  intros r. subst r. unfold bank_db.balance, balance_of, mbind, M_bind. simpl.
  rewrite lower_idempotent.
  destruct (wallets db !! lower address) as [wallet|] eqn:E; simpl.
  - repeat split; try reflexivity. 
  - repeat split; try reflexivity.
    + intros a. rewrite lookup_insert. case_decide as Ha; [|reflexivity].
      rewrite <- Ha, E. reflexivity.
    + intros [x Hx]. discriminate.
Qed.

(** ** The registry, method by method *)

Lemma dict_get_set_ne {V} (d : list (Z * V)) k k' v :
  k <> k' -> dict_get (dict_set d k v) k' = dict_get d k'.
Proof.
  intros Hne. induction d as [|[k0 v0] d IH]; simpl.
  - rewrite decide_False by exact Hne. reflexivity.
  - destruct (decide (k0 = k)) as [->|Hk]; simpl.
    + rewrite !decide_False by exact Hne. reflexivity.
    + rewrite IH. reflexivity.
Qed.

Lemma dict_get_None {V} (d : list (Z * V)) k :
  dict_get d k = None <-> k ∉ map fst d.
Proof.
  induction d as [|[k0 v0] d IH]; simpl.
  - split; [intros _; apply not_elem_of_nil | reflexivity].
  - rewrite not_elem_of_cons. destruct (decide (k0 = k)) as [->|Hk].
    + split; [discriminate | intros [H _]; contradiction].
    + rewrite IH. split; [intros H; split; [congruence | exact H] | intros [_ H]; exact H].
Qed.

Lemma dict_set_present_keys {V} (d : list (Z * V)) k v :
  is_Some (dict_get d k) -> map fst (dict_set d k v) = map fst d.
Proof.
  induction d as [|[k0 v0] d IH]; simpl.
  - intros [x Hx]. discriminate.
  - destruct (decide (k0 = k)) as [->|Hk]; simpl.
    + reflexivity.
    + intros H. rewrite IH by exact H. reflexivity.
Qed.

Lemma dict_set_absent {V} (d : list (Z * V)) k v :
  dict_get d k = None -> dict_set d k v = d ++ [(k, v)].
Proof.
  induction d as [|[k0 v0] d IH]; simpl.
  - reflexivity.
  - destruct (decide (k0 = k)) as [->|Hk]; [discriminate|].
    intros H. rewrite IH by exact H. reflexivity.
Qed.

Lemma mutate_keeps_ids claim_id f db :
  consecutive_ids db -> consecutive_ids (claims_db.mutate claim_id f db).1.
Proof.
  intros [H1 H2]. unfold claims_db.mutate, modify. cbn [fst].
  destruct (dict_get (claims db) claim_id) eqn:E; [|split; assumption].
  split; [exact H1|]. cbn [claims next_claim_id].
  rewrite dict_set_present_keys by (rewrite E; eauto). exact H2.
Qed.

Lemma next_id_unused db : consecutive_ids db -> dict_get (claims db) (next_claim_id db) = None.
Proof.
  intros [H1 H2]. apply dict_get_None. rewrite H2, elem_of_seqZ. lia.
Qed.

Lemma create_claim_keeps_ids now p u t cp cc v db :
  consecutive_ids db ->
  consecutive_ids (claims_db.create_claim now p u t cp cc v db).1.
Proof.
  intros Hwf. pose proof (next_id_unused db Hwf) as Hfresh. destruct Hwf as [H1 H2].
  unfold claims_db.create_claim. cbn [fst]. split; cbn [claims next_claim_id]; [lia|].
  rewrite dict_set_absent by exact Hfresh. rewrite map_app, H2. simpl.
  replace (next_claim_id db + 1 - 1) with ((next_claim_id db - 1) + 1) by lia.
  rewrite seqZ_app by lia. rewrite (seqZ_cons _ 1) by lia. 
  f_equal. change (seqZ (Z.succ (1 + (next_claim_id db - 1))) (Z.pred 1)) with (@nil Z).
  f_equal. lia.
Qed.

Lemma get_claim_keeps_ids claim_id : preserves consecutive_ids (claims_db.get_claim claim_id).
Proof. intros db H. exact H. Qed.

Lemma claims_call_keeps_ids c db : consecutive_ids db -> consecutive_ids (claims_call_run db c).
Proof.
  intros H.
  destruct c as [now p u t cp cc v | now claim_id party
                | now claim_id final_status | now claim_id claim_status]; simpl.
  - apply create_claim_keeps_ids, H.
  - revert db H. change (preserves consecutive_ids
      (claims_db.initiate_dispute now claim_id party)).
    unfold claims_db.initiate_dispute.
    preserve_with ltac:(first [ apply get_claim_keeps_ids
                              | intros ? ?; apply mutate_keeps_ids; assumption ]).
  - revert db H. change (preserves consecutive_ids
      (claims_db.finalize_claim now claim_id final_status)).
    unfold claims_db.finalize_claim.
    preserve_with ltac:(first [ apply get_claim_keeps_ids
                              | intros ? ?; apply mutate_keeps_ids; assumption ]).
  - revert db H. change (preserves consecutive_ids
      (claims_db.validate_or_contradict_claim now claim_id claim_status)).
    unfold claims_db.validate_or_contradict_claim.
    preserve_with ltac:(first [ apply get_claim_keeps_ids
                              | intros ? ?; apply mutate_keeps_ids; assumption ]).
Qed.

(** X8. After any sequence of calls of the registry's mutating methods
    on a fresh registry, the ids in use are 1, 2, ... up to the one before
    [next_claim_id], in insertion order and without repetition, and
    [next_claim_id] itself is unused. *)
Theorem registry_ids_are_consecutive (cs : list claims_call) :
  let db := claims_calls_run (mkClaims [] 1) cs in
  map fst (claims db) = seqZ 1 (next_claim_id db - 1)
  /\ NoDup (map fst (claims db))
  /\ dict_get (claims db) (next_claim_id db) = None.
Proof.
  intros db.
  assert (Hwf : consecutive_ids db).
  { subst db. generalize (mkClaims [] 1),
      (conj (Z.le_refl 1) eq_refl : consecutive_ids (mkClaims [] 1)).
    induction cs as [|c cs IH]; intros db0 H0; simpl; [exact H0|].
    apply IH, claims_call_keeps_ids, H0. }
  split; [exact (proj2 Hwf)|]. split.
  - rewrite (proj2 Hwf). apply NoDup_seqZ.
  - apply next_id_unused, Hwf.
Qed.

(** X9. On a registry whose next id is unused, [create_claim] returns
    an OPEN claim without disputant, stamped with the process clock, files
    it last under that id, moves the next id on by one and leaves every
    other claim as it was. *)
Theorem create_claim_registers now prep user t proof cid value db :
  dict_get (claims db) (next_claim_id db) = None ->
  let r := claims_db.create_claim now prep user t proof cid value db in
  let claim := mkClaim user None t OPEN value proof cid prep now in
  r.2 = Ok claim
  /\ claims r.1 = claims db ++ [(next_claim_id db, claim)]
  /\ next_claim_id r.1 = next_claim_id db + 1
  /\ (claims_db.get_claim (next_claim_id db) r.1).2 = Ok (Some claim)
  /\ forall claim_id, claim_id <> next_claim_id db ->
       (claims_db.get_claim claim_id r.1).2 = (claims_db.get_claim claim_id db).2.
Proof.
  intros Hfresh r claim. subst r. unfold claims_db.create_claim, claims_db.get_claim.
  cbn [fst snd claims next_claim_id].
  split; [reflexivity|]. split; [apply dict_set_absent, Hfresh|].
  split; [reflexivity|]. split.
  - rewrite dict_get_set_eq. reflexivity.
  - intros claim_id Hne. rewrite dict_get_set_ne by congruence. reflexivity.
Qed.

Lemma create_claim_registers_witness :
  (claims_db.create_claim 7 "p2" bob 7 "proof" "comp" 1 (claimsdb one_claim)).2
  = Ok (mkClaim bob None 7 OPEN 1 "proof" "comp" "p2" 7).
Proof.
  refine (proj1 (create_claim_registers 7 "p2" bob 7 "proof" "comp" 1 (claimsdb one_claim)
                  _)); evaluate.
Defined.

Lemma registry_step_present now claim_id db claim (f : Claim -> Claim) :
  dict_get (claims db) claim_id = Some claim ->
  (claim0 ← claims_db.get_claim claim_id;
   match claim0 with
   | Some _ =>
       claims_db.mutate claim_id f;;
       claims_db.mutate claim_id (set_lastUpdated now);;
       claims_db.get_claim claim_id
   | None => mret None
   end) db
  = (mkClaims (dict_set (claims db) claim_id (set_lastUpdated now (f claim)))
       (next_claim_id db), Ok (Some (set_lastUpdated now (f claim)))).
Proof.
  intros Hc.
  rewrite (bind_run _ _ db db (Some claim))
    by (unfold claims_db.get_claim; rewrite Hc; reflexivity).
  rewrite (bind_run _ _ _ _ _ (mutate_present _ _ _ _ Hc)).
  rewrite (bind_run _ _ _ _ _
             (mutate_present _ _ (mkClaims _ _) _ (dict_get_set_eq _ _ _))).
  unfold claims_db.get_claim. cbn [claims next_claim_id].
  rewrite !dict_set_set, dict_get_set_eq. reflexivity.
Qed.

(** X10. [finalize_claim] and [validate_or_contradict_claim] are the
    same function.  On an unknown id they return [None] and change nothing;
    on a known one they set the status they are given, whatever the status
    was, and the time of the last update, and keep the other claims, the
    order of the ids and the next id. *)
Theorem finalize_claim_effect now claim_id final_status db :
  let r := claims_db.finalize_claim now claim_id final_status db in
  claims_db.validate_or_contradict_claim now claim_id final_status db = r
  /\ match dict_get (claims db) claim_id with
     | None => r = (db, Ok None)
     | Some claim =>
         let claim' := set_lastUpdated now (set_status final_status claim) in
         r.2 = Ok (Some claim')
         /\ dict_get (claims r.1) claim_id = Some claim'
         /\ (forall other, other <> claim_id ->
               dict_get (claims r.1) other = dict_get (claims db) other)
         /\ map fst (claims r.1) = map fst (claims db)
         /\ next_claim_id r.1 = next_claim_id db
     end.
Proof.
  intros r. subst r. split; [reflexivity|].
  destruct (dict_get (claims db) claim_id) as [claim|] eqn:Hc.
  - unfold claims_db.finalize_claim.
    rewrite (registry_step_present now claim_id db claim (set_status final_status) Hc).
    cbn [fst snd claims next_claim_id].
    split; [reflexivity|]. split; [apply dict_get_set_eq|].
    split; [intros other Hne; apply dict_get_set_ne; congruence|].
    split; [|reflexivity]. apply dict_set_present_keys. rewrite Hc. eauto.
  - unfold claims_db.finalize_claim, claims_db.get_claim, mbind, M_bind.
    rewrite Hc. reflexivity.
Qed.

(** X11. [initiate_dispute] on an unknown id returns [None] and changes
    nothing; on a known one it sets the disputant, the status DISPUTING
    (whatever the status was) and the time of the last update, and keeps
    every other field, the other claims, the order of the ids and the next
    id. *)
Theorem initiate_dispute_effect now claim_id disputant db :
  let r := claims_db.initiate_dispute now claim_id disputant db in
  match dict_get (claims db) claim_id with
  | None => r = (db, Ok None)
  | Some claim =>
      let claim' :=
        mkClaim (user_address claim) (Some disputant) (timestamp_of_claim claim)
                DISPUTING (collateral claim) (compProof claim) (compCID claim)
                (prepCID claim) now in
      r.2 = Ok (Some claim')
      /\ dict_get (claims r.1) claim_id = Some claim'
      /\ (forall other, other <> claim_id ->
            dict_get (claims r.1) other = dict_get (claims db) other)
      /\ map fst (claims r.1) = map fst (claims db)
      /\ next_claim_id r.1 = next_claim_id db
  end.
Proof.
  intros r. subst r.
  destruct (dict_get (claims db) claim_id) as [claim|] eqn:Hc.
  - rewrite (initiate_dispute_present now claim_id disputant db claim Hc).
    cbn [fst snd claims next_claim_id].
    split; [reflexivity|]. split; [apply dict_get_set_eq|].
    split; [intros other Hne; apply dict_get_set_ne; congruence|].
    split; [|reflexivity]. apply dict_set_present_keys. rewrite Hc. eauto.
  - unfold claims_db.initiate_dispute, claims_db.get_claim, mbind, M_bind.
    rewrite Hc. reflexivity.
Qed.

(** ** Losing a claim *)

(** X12. For a user id present in the users database whose open claims
    hold the claim id, [lost_claim] adds one to [total_claims], takes the
    id out of [open_claims], leaves the other counters, the open disputes
    and every other user as they were, and returns the updated user; for an
    absent user id it returns [None] and changes nothing. *)
Theorem lost_claim_frame (db : UsersDatabase) (claimID : pykey) :
  (forall user_id user,
      users db !! user_id = Some user -> claimID ∈ open_claims user ->
      let user' :=
        mkUser (open_claims user ∖ {[claimID]}) (open_disputes user)
               (total_disputes user) (won_disputes user)
               (total_claims user + 1) (correct_claims user) in
      users_db.lost_claim (Some user_id) claimID db
      = (mkUsers (<[user_id := user']> (users db)), Ok (Some user')))
  /\ (forall user_id,
      (user_id ≫= fun k => users db !! k) = None ->
      users_db.lost_claim user_id claimID db = (db, Ok None)).
Proof.
  split.
  - intros user_id user Hu Hin user'.
    unfold users_db.lost_claim, users_db.del_open_claims, users_db.mutate,
      users_db.get_user, modify, mbind, M_bind. simpl. rewrite Hu. simpl.
    rewrite decide_True by exact Hin. simpl.
    rewrite !alter_alter_eq, (alter_alt_Some _ _ user_id user) by exact Hu.
    rewrite lookup_insert_eq. reflexivity.
  - intros user_id Hnone.
    unfold users_db.lost_claim, users_db.get_user, mbind, M_bind. simpl.
    destruct user_id as [uid|]; simpl in *; [rewrite Hnone|]; reflexivity.
Qed.

(** ** The deposit and withdraw routes *)

Lemma try_except_then_run {S A B} (c : M S A) (h : exn -> M S B) (k : A -> M S B) s s' a :
  c s = (s', Ok a) -> try_except_then c h k s = k a s'.
Proof. intros H. unfold try_except_then. rewrite H. reflexivity. Qed.

Lemma try_except_then_raise {S A B} (c : M S A) (h : exn -> M S B) (k : A -> M S B) s s' e :
  c s = (s', Raise e) -> try_except_then c h k s = h e s'.
Proof. intros H. unfold try_except_then. rewrite H. reflexivity. Qed.

Lemma mret_run {S A} (a : A) (s : S) : (mret a : M S A) s = (s, Ok a).
Proof. reflexivity. Qed.

Ltac run_pure :=
  rewrite ?bind_emit, ?bind_mret, ?mret_run;
  cbn [fst snd bank claimsdb usersdb outputs users].

Lemma in_users_run {A} (c : M UsersDatabase A) w db' r :
  c (usersdb w) = (db', r) ->
  in_users c w = (mkWorld (bank w) (claimsdb w) db' (outputs w), r).
Proof. intros H. unfold in_users, zoom. rewrite H. reflexivity. Qed.

(** The outcome of a ledger method, with what it shows of the balances. *)
Lemma deposit_cases db address amount :
  0 < amount ->
  exists db',
    bank_db.deposit (Some address) amount db = (db', Ok tt)
    /\ forall a, balance_of db' a
                 = if decide (lower a = lower address)
                   then balance_of db a + amount else balance_of db a.
Proof.
  intros Hpos. destruct (deposit_observed db address amount Hpos) as [H1 H2].
  destruct (bank_db.deposit (Some address) amount db) as [db' r]. simpl in *.
  subst r. exists db'. split; [reflexivity | exact H2].
Qed.

Lemma withdraw_cases db address amount :
  0 < amount <= balance_of db address ->
  exists db',
    bank_db.withdraw (Some address) amount db = (db', Ok tt)
    /\ forall a, balance_of db' a
                 = if decide (lower a = lower address)
                   then balance_of db a - amount else balance_of db a.
Proof.
  intros Hamount. destruct (withdraw_observed db address amount Hamount) as [H1 H2].
  destruct (bank_db.withdraw (Some address) amount db) as [db' r]. simpl in *.
  subst r. exists db'. split; [reflexivity | exact H2].
Qed.

(** X13. A deposit of the accepted token, sent by the portal, with a
    positive amount is answered [True]: the depositor is credited the
    amount, gets a fresh user record unless one exists, no other balance or
    user and no claim changes, and a notice carries the new balance. *)
Theorem deposit_route_credits md d w :
  lower (msg_sender md) = lower settings.PORTAL_ERC20_ADDRESS ->
  lower (token_address d) = lower settings.TOKEN_ERC20_ADDRESS ->
  0 < amount d ->
  let r := register_deposit.default_handler md d w in
  r.2 = Ok true
  /\ balance_in r.1 (depositor d) = balance_in w (depositor d) + amount d
  /\ (forall a, lower a <> lower (depositor d) -> balance_in r.1 a = balance_in w a)
  /\ user_of r.1 (depositor d)
     = Some (default (mkUser ∅ ∅ 0 0 0 0) (user_of w (depositor d)))
  /\ (forall u, u <> depositor d -> user_of r.1 u = user_of w u)
  /\ claimsdb r.1 = claimsdb w
  /\ outputs r.1
     = outputs w
       ++ [notice (action_deposit (depositor d) (balance_in w (depositor d) + amount d))].
Proof.
  intros Hportal Htoken Hpos r. subst r.
  unfold register_deposit.default_handler.
  rewrite bool_decide_eq_true_2 by exact Hportal.
  unfold register_deposit.process_deposit_and_add_user. cbv zeta.
  rewrite bool_decide_eq_true_2 by exact Htoken. cbn [negb].
  destruct w as [b c u o].
  rewrite (bind_run _ _ _ _ _ (in_users_run _ (mkWorld b c u o) _ _ eq_refl)).
  cbn [bank claimsdb usersdb outputs].
  unfold balance_in, user_of. cbn [bank claimsdb usersdb outputs].
  destruct (deposit_cases b (depositor d) (amount d) Hpos) as (b1 & Hb1 & Hbal1).
  destruct (balance_read b1 (depositor d)) as (b2 & Hb2 & Hbal2).
  assert (Hfinal : forall u',
    (try_except_then
       (in_bank (bank_db.deposit (Some (depositor d)) (amount d)))
       (fun e => emit (report (Could_not_deposit (amount d) (text_of e)));; mret false)
       (fun _ => b' ← in_bank (bank_db.balance (Some (depositor d)));
                 emit (notice (action_deposit (depositor d) b'));; mret true))
      (mkWorld b c u' o)
    = (mkWorld b2 c u'
         (o ++ [notice (action_deposit (depositor d) (balance_of b1 (depositor d)))]),
       Ok true)).
  { intros u'.
    rewrite (try_except_then_run _ _ _ _ _ _ (in_bank_run _ (mkWorld b c u' o) _ _ Hb1)).
    rewrite (bind_run _ _ _ _ _ (in_bank_run _ (mkWorld _ _ _ _) _ _ Hb2)).
    reflexivity. }
  assert (Hb1d : balance_of b1 (depositor d) = balance_of b (depositor d) + amount d).
  { rewrite Hbal1, decide_True by reflexivity. reflexivity. }
  simpl (Some (depositor d) ≫= _).
  destruct (users u !! depositor d) as [user|] eqn:Hu.
  - cbv beta iota. rewrite bind_mret, Hfinal. cbn [fst snd bank claimsdb usersdb outputs].
    rewrite Hb1d, Hbal2, Hb1d, Hu.
    repeat split; try reflexivity.
    intros a Ha. rewrite Hbal2, Hbal1, decide_False by exact Ha. reflexivity.
  - cbv beta iota.
    erewrite (bind_run _ _ _ _ tt); [|reflexivity].
    rewrite Hfinal. cbn [fst snd bank claimsdb usersdb outputs users].
    rewrite Hb1d, Hbal2, Hb1d, lookup_insert_eq.
    repeat split; try reflexivity.
    + intros a Ha. rewrite Hbal2, Hbal1, decide_False by exact Ha. reflexivity.
    + intros u' Hu'. rewrite lookup_insert_ne by congruence. reflexivity.
Qed.

Lemma deposit_route_credits_witness :
  (register_deposit.default_handler portal
     (mkErc20Deposit bob settings.TOKEN_ERC20_ADDRESS 7) one_claim).2 = Ok true.
Proof.
  refine (proj1 (deposit_route_credits portal
                  (mkErc20Deposit bob settings.TOKEN_ERC20_ADDRESS 7) one_claim
                  _ _ _)); evaluate.
Defined.

(** X14. An input that the portal did not send is answered [False] with
    the report "Nothing to do here"; a deposit of another token is answered
    [True] with a voucher that sends the amount back; neither changes a
    database. *)
Theorem deposit_route_refuses md d w :
  (lower (msg_sender md) <> lower settings.PORTAL_ERC20_ADDRESS ->
   register_deposit.default_handler md d w
   = (mkWorld (bank w) (claimsdb w) (usersdb w) (outputs w ++ [report Nothing_to_do_here]),
      Ok false))
  /\ (lower (msg_sender md) = lower settings.PORTAL_ERC20_ADDRESS ->
      lower (token_address d) <> lower settings.TOKEN_ERC20_ADDRESS ->
      register_deposit.default_handler md d w
      = (mkWorld (bank w) (claimsdb w) (usersdb w)
           (outputs w ++ [voucher (token_address d) (depositor d) (amount d)]),
         Ok true)).
Proof.
  split.
  - intros Hother. unfold register_deposit.default_handler.
    rewrite bool_decide_eq_false_2 by exact Hother. reflexivity.
  - intros Hportal Htoken. unfold register_deposit.default_handler.
    rewrite bool_decide_eq_true_2 by exact Hportal.
    unfold register_deposit.process_deposit_and_add_user. cbv zeta.
    rewrite bool_decide_eq_false_2 by exact Htoken. reflexivity.
Qed.

(** X15. A deposit of the accepted token with an amount that is not
    positive is answered [False] with a report of the ledger's "invalid
    amount"; the depositor's user record has been created all the same, and
    the ledger and the registry are as before. *)
Theorem deposit_route_empty_amount md d w :
  lower (msg_sender md) = lower settings.PORTAL_ERC20_ADDRESS ->
  lower (token_address d) = lower settings.TOKEN_ERC20_ADDRESS ->
  amount d <= 0 ->
  let r := register_deposit.default_handler md d w in
  r.2 = Ok false
  /\ bank r.1 = bank w
  /\ claimsdb r.1 = claimsdb w
  /\ user_of r.1 (depositor d)
     = Some (default (mkUser ∅ ∅ 0 0 0 0) (user_of w (depositor d)))
  /\ outputs r.1 = outputs w ++ [report (Could_not_deposit (amount d) invalid_amount)].
Proof.
  intros Hportal Htoken Hle r. subst r.
  unfold register_deposit.default_handler.
  rewrite bool_decide_eq_true_2 by exact Hportal.
  unfold register_deposit.process_deposit_and_add_user. cbv zeta.
  rewrite bool_decide_eq_true_2 by exact Htoken. cbn [negb].
  destruct w as [b c u o].
  rewrite (bind_run _ _ _ _ _ (in_users_run _ (mkWorld b c u o) _ _ eq_refl)).
  cbn [bank claimsdb usersdb outputs]. unfold user_of.
  assert (Hdep : bank_db.deposit (Some (depositor d)) (amount d) b
                 = (b, Raise (Exception invalid_amount))).
  { unfold bank_db.deposit. destruct (Z.leb_spec (amount d) 0); [reflexivity | lia]. }
  simpl (Some (depositor d) ≫= _).
  destruct (users u !! depositor d) as [user|] eqn:Hu; cbv beta iota.
  - rewrite bind_mret.
    rewrite (try_except_then_raise _ _ _ _ _ _ (in_bank_run _ (mkWorld _ _ _ _) _ _ Hdep)).
    run_pure. rewrite Hu. repeat split; reflexivity.
  - erewrite (bind_run _ _ _ _ tt); [|reflexivity].
    rewrite (try_except_then_raise _ _ _ _ _ _ (in_bank_run _ (mkWorld _ _ _ _) _ _ Hdep)).
    run_pure. rewrite lookup_insert_eq, Hu. repeat split; reflexivity.
Qed.

Lemma deposit_route_empty_amount_witness :
  (register_deposit.default_handler portal
     (mkErc20Deposit bob settings.TOKEN_ERC20_ADDRESS 0) one_claim).2 = Ok false.
Proof.
  refine (proj1 (deposit_route_empty_amount portal
                  (mkErc20Deposit bob settings.TOKEN_ERC20_ADDRESS 0) one_claim
                  _ _ _)); evaluate.
Defined.

(** X16. A withdrawal of a positive amount that the sender holds is
    answered [True]: the sender is debited the amount, nothing else
    changes, and a voucher for the amount and a notice with the new balance
    are emitted, in this order. *)
Theorem withdraw_route_pays md p w :
  0 < wi_amount p <= balance_in w (msg_sender md) ->
  let r := withdraw.withdraw md p w in
  r.2 = Ok true
  /\ balance_in r.1 (msg_sender md) = balance_in w (msg_sender md) - wi_amount p
  /\ (forall a, lower a <> lower (msg_sender md) -> balance_in r.1 a = balance_in w a)
  /\ claimsdb r.1 = claimsdb w
  /\ usersdb r.1 = usersdb w
  /\ outputs r.1
     = outputs w
       ++ [voucher settings.TOKEN_ERC20_ADDRESS (msg_sender md) (wi_amount p);
           notice (action_withdraw (msg_sender md)
                     (balance_in w (msg_sender md) - wi_amount p))].
Proof.
  intros Hamount r. subst r. unfold withdraw.withdraw. cbv zeta.
  destruct w as [b c u o]. unfold balance_in in *. cbn [bank] in *.
  destruct (withdraw_cases b (msg_sender md) (wi_amount p) Hamount) as (b1 & Hb1 & Hbal1).
  destruct (balance_read b1 (msg_sender md)) as (b2 & Hb2 & Hbal2).
  rewrite (try_except_then_run _ _ _ _ _ _ (in_bank_run _ (mkWorld b c u o) _ _ Hb1)).
  rewrite bind_emit.
  rewrite (bind_run _ _ _ _ _ (in_bank_run _ (mkWorld _ _ _ _) _ _ Hb2)).
  run_pure. rewrite !Hbal2, !Hbal1, decide_True by reflexivity. rewrite <- app_assoc.
  repeat split; try reflexivity.
  intros a Ha. rewrite Hbal2, Hbal1, decide_False by exact Ha. reflexivity.
Qed.

Lemma withdraw_route_pays_witness :
  (withdraw.withdraw (mkMetadata alice 1) (mkWithdrawInput 5) one_claim).2 = Ok true.
Proof.
  refine (proj1 (withdraw_route_pays (mkMetadata alice 1) (mkWithdrawInput 5) one_claim
                  _)); evaluate.
Defined.

(** X17. A withdrawal of an amount that is not positive, or of more than
    the sender holds, is answered [False] with a report of the ledger's
    error and changes no balance, claim or user. *)
Theorem withdraw_route_refuses md p w :
  wi_amount p <= 0 \/ balance_in w (msg_sender md) < wi_amount p ->
  let r := withdraw.withdraw md p w in
  r.2 = Ok false
  /\ (forall a, balance_in r.1 a = balance_in w a)
  /\ claimsdb r.1 = claimsdb w
  /\ usersdb r.1 = usersdb w
  /\ outputs r.1
     = outputs w
       ++ [report (Could_not_withdraw (wi_amount p)
                     (if wi_amount p <=? 0 then invalid_amount else insufficient_funds))].
Proof.
  intros Hbad r. subst r. unfold withdraw.withdraw. cbv zeta.
  destruct w as [b c u o]. unfold balance_in in *. cbn [bank] in *.
  destruct (Z.leb_spec (wi_amount p) 0) as [Hle|Hpos].
  - assert (Hw : bank_db.withdraw (Some (msg_sender md)) (wi_amount p) b
                 = (b, Raise (Exception invalid_amount))).
    { unfold bank_db.withdraw. destruct (Z.leb_spec (wi_amount p) 0); [reflexivity | lia]. }
    rewrite (try_except_then_raise _ _ _ _ _ _ (in_bank_run _ (mkWorld b c u o) _ _ Hw)).
    run_pure. repeat split; reflexivity.
  - destruct Hbad as [Hle|Hlt]; [lia|].
    destruct (withdraw_insufficient b (msg_sender md) (wi_amount p) Hpos Hlt) as [H1 H2].
    destruct (bank_db.withdraw (Some (msg_sender md)) (wi_amount p) b) as [b1 r1] eqn:Hw.
    simpl in H1, H2. subst r1.
    rewrite (try_except_then_raise _ _ _ _ _ _ (in_bank_run _ (mkWorld b c u o) _ _ Hw)).
    run_pure. repeat split; try reflexivity. exact H2.
Qed.

Lemma withdraw_route_refuses_witness :
  (withdraw.withdraw (mkMetadata bob 1) (mkWithdrawInput 5) one_claim).2 = Ok false.
Proof.
  refine (proj1 (withdraw_route_refuses (mkMetadata bob 1) (mkWithdrawInput 5) one_claim
                  _)).
  right. evaluate.
Defined.

(** ** The claim route, check by check *)

Lemma transfer_cases db sender receiver amount :
  0 < amount <= balance_of db sender ->
  exists db',
    bank_db.transfer (Some sender) (Some receiver) amount db = (db', Ok tt)
    /\ forall a, balance_of db' a
                 = balance_of db a
                   - (if decide (lower a = lower sender) then amount else 0)
                   + (if decide (lower a = lower receiver) then amount else 0).
Proof.
  intros Hamount. unfold bank_db.transfer.
  destruct (Z.leb_spec amount 0); [lia|].
  destruct (withdraw_cases db sender amount Hamount) as (db1 & H1 & Hbal1).
  destruct (deposit_cases db1 receiver amount (proj1 Hamount)) as (db2 & H2 & Hbal2).
  exists db2. rewrite (bind_run _ _ _ _ _ H1). split; [exact H2|].
  intros a. rewrite Hbal2, Hbal1. repeat case_decide; lia.
Qed.

Lemma check_and_lock_funds_passes w user_wallet_address :
  settings.COLLATERAL_AMOUNT <= balance_in w user_wallet_address ->
  exists bank',
    generate_claim.check_and_lock_funds user_wallet_address w
    = (mkWorld bank' (claimsdb w) (usersdb w) (outputs w), Ok (Pair true no_text))
    /\ forall a, balance_of bank' a
                 = balance_in w a
                   - (if decide (lower a = lower user_wallet_address)
                      then settings.COLLATERAL_AMOUNT else 0)
                   + (if decide (lower a = lower settings.LOCKED_ASSET_ADDRESS)
                      then settings.COLLATERAL_AMOUNT else 0).
Proof.
  intros Hbal. destruct w as [b c u o]. unfold balance_in in *. cbn [bank] in *.
  destruct (balance_read b user_wallet_address) as (b1 & Hb1 & Hbal1).
  destruct (transfer_cases b1 user_wallet_address settings.LOCKED_ASSET_ADDRESS
              settings.COLLATERAL_AMOUNT) as (b2 & Hb2 & Hbal2).
  { rewrite Hbal1. split; [reflexivity | exact Hbal]. }
  exists b2. unfold generate_claim.check_and_lock_funds.
  rewrite (bind_run _ _ _ _ _ (in_bank_run _ (mkWorld b c u o) _ _ Hb1)).
  destruct (Z.ltb_spec (balance_of b user_wallet_address) settings.COLLATERAL_AMOUNT);
    [lia|].
  unfold try_except.
  rewrite (bind_run _ _ _ _ _ (in_bank_run _ (mkWorld _ _ _ _) _ _ Hb2)).
  split; [reflexivity|]. intros a. rewrite Hbal2, Hbal1. reflexivity.
Qed.

(** The fund check answers a pair, whatever the ledger does, and touches
    the ledger only. *)
Lemma check_and_lock_funds_answers w user_wallet_address :
  exists bank' valid msg,
    generate_claim.check_and_lock_funds user_wallet_address w
    = (mkWorld bank' (claimsdb w) (usersdb w) (outputs w), Ok (Pair valid msg)).
Proof.
  destruct w as [b c u o].
  destruct (balance_read b user_wallet_address) as (b1 & Hb1 & _).
  unfold generate_claim.check_and_lock_funds.
  rewrite (bind_run _ _ _ _ _ (in_bank_run _ (mkWorld b c u o) _ _ Hb1)).
  destruct (balance_of b user_wallet_address <? settings.COLLATERAL_AMOUNT).
  - destruct (balance_read b1 user_wallet_address) as (b2 & Hb2 & _).
    rewrite (bind_run _ _ _ _ _ (in_bank_run _ (mkWorld _ _ _ _) _ _ Hb2)).
    do 3 eexists. reflexivity.
  - unfold try_except.
    destruct (bank_db.transfer (Some user_wallet_address)
                (Some settings.LOCKED_ASSET_ADDRESS) settings.COLLATERAL_AMOUNT b1)
      as [b2 [[]|e]] eqn:Etr.
    + rewrite (bind_run _ _ _ _ _ (in_bank_run _ (mkWorld _ _ _ _) _ _ Etr)).
      do 3 eexists. reflexivity.
    + rewrite (bind_raise _ _ _ _ _ (in_bank_run _ (mkWorld _ _ _ _) _ _ Etr)).
      do 3 eexists. reflexivity.
Qed.

(** The claim route never answers [True] and never reaches the registry or
    the users: it answers [False] with a report, or it stops at
    [payload.comp_proof]. *)
Lemma handle_claim_cases now md p w :
  exists bank' outputs',
    (generate_claim.handle_claim now md p w).1
    = mkWorld bank' (claimsdb w) (usersdb w) outputs'
    /\ ((generate_claim.handle_claim now md p w).2 = Ok false
        \/ (generate_claim.handle_claim now md p w).2 = Raise AttributeError)
    /\ (bank' = bank w
        \/ bank' = bank (generate_claim.check_and_lock_funds (msg_sender md) w).1).
Proof.
  unfold generate_claim.handle_claim, generate_claim.validate_collateral.
  destruct (bool_decide (ci_collateral p = settings.COLLATERAL_AMOUNT)); cbn [negb].
  2:{ do 2 eexists. split; [reflexivity|]. split; left; reflexivity. }
  rewrite bind_unpack_pair. cbn [negb].
  rewrite (bind_run _ _ _ _ _ (check_existing_claim_eq w (ci_prep_CID p))).
  destruct (bool_decide (bound_to w (ci_prep_CID p) = [])).
  2:{ do 2 eexists. split; [reflexivity|]. split; left; reflexivity. }
  rewrite bind_unpack_pair. cbn [negb].
  destruct (check_and_lock_funds_answers w (msg_sender md))
    as (b1 & valid & msg & Hlock).
  rewrite (bind_run _ _ _ _ _ Hlock).
  rewrite bind_unpack_pair. rewrite Hlock. destruct valid; cbn [negb].
  - do 2 eexists. split; [reflexivity|]. split; right; reflexivity.
  - do 2 eexists. split; [reflexivity|]. split; [left | right]; reflexivity.
Qed.

(** X18. A Claim trigger that passes the three checks (the collateral
    is the required one, the preparation CID is unbound, the sender holds
    the collateral) raises [AttributeError] at [payload.comp_proof] after
    the collateral has moved from the sender to the locked pool: no claim
    is registered, no user changes and nothing is emitted. *)
Theorem claim_route_locks_collateral_and_raises now md p w :
  ci_collateral p = settings.COLLATERAL_AMOUNT ->
  bound_to w (ci_prep_CID p) = [] ->
  settings.COLLATERAL_AMOUNT <= balance_in w (msg_sender md) ->
  let r := generate_claim.handle_claim now md p w in
  r.2 = Raise AttributeError
  /\ (forall a,
        balance_in r.1 a
        = balance_in w a
          - (if decide (lower a = lower (msg_sender md))
             then settings.COLLATERAL_AMOUNT else 0)
          + (if decide (lower a = lower settings.LOCKED_ASSET_ADDRESS)
             then settings.COLLATERAL_AMOUNT else 0))
  /\ claimsdb r.1 = claimsdb w
  /\ usersdb r.1 = usersdb w
  /\ outputs r.1 = outputs w.
Proof.
  intros Hcoll Hfree Hbal r. subst r.
  unfold generate_claim.handle_claim, generate_claim.validate_collateral.
  rewrite bool_decide_eq_true_2 by exact Hcoll. cbn [negb].
  rewrite bind_unpack_pair. cbn [negb].
  rewrite (bind_run _ _ _ _ _ (check_existing_claim_eq w (ci_prep_CID p))).
  rewrite bool_decide_eq_true_2 by exact Hfree.
  rewrite bind_unpack_pair. cbn [negb].
  destruct (check_and_lock_funds_passes w (msg_sender md) Hbal) as (b1 & Hlock & Hbal1).
  rewrite (bind_run _ _ _ _ _ Hlock).
  rewrite bind_unpack_pair. cbn [negb].
  repeat split. exact Hbal1.
Qed.

Lemma claim_route_locks_collateral_and_raises_witness :
  (generate_claim.handle_claim 3 (mkMetadata alice 3) (claim_on "p2") one_claim).2
  = Raise AttributeError.
Proof.
  refine (proj1 (claim_route_locks_collateral_and_raises 3 (mkMetadata alice 3)
                  (claim_on "p2") one_claim
                  _ _ _)); evaluate.
Defined.

(** X19. A Claim trigger with another collateral than the required one
    is answered [False] with a report and changes nothing; one whose sender
    holds less than the collateral is answered [False] with the report
    "Insufficient funds ..." and changes no balance, claim or user. *)
Theorem claim_route_refuses now md p w :
  (ci_collateral p <> settings.COLLATERAL_AMOUNT ->
   generate_claim.handle_claim now md p w
   = (reported w Collateral_amount_should_be_equal, Ok false))
  /\ (ci_collateral p = settings.COLLATERAL_AMOUNT ->
      bound_to w (ci_prep_CID p) = [] ->
      balance_in w (msg_sender md) < settings.COLLATERAL_AMOUNT ->
      let r := generate_claim.handle_claim now md p w in
      r.2 = Ok false
      /\ (forall a, balance_in r.1 a = balance_in w a)
      /\ claimsdb r.1 = claimsdb w
      /\ usersdb r.1 = usersdb w
      /\ outputs r.1 = outputs w ++ [report Insufficient_funds_for_collateral]).
Proof.
  split.
  - intros Hcoll. unfold generate_claim.handle_claim, generate_claim.validate_collateral.
    rewrite bool_decide_eq_false_2 by exact Hcoll. reflexivity.
  - intros Hcoll Hfree Hpoor r. subst r.
    unfold generate_claim.handle_claim, generate_claim.validate_collateral.
    rewrite bool_decide_eq_true_2 by exact Hcoll. cbn [negb].
    rewrite bind_unpack_pair. cbn [negb].
    rewrite (bind_run _ _ _ _ _ (check_existing_claim_eq w (ci_prep_CID p))).
    rewrite bool_decide_eq_true_2 by exact Hfree.
    rewrite bind_unpack_pair. cbn [negb].
    destruct w as [b c u o]. unfold balance_in in *. cbn [bank] in *.
    destruct (balance_read b (msg_sender md)) as (b1 & Hb1 & Hbal1).
    destruct (balance_read b1 (msg_sender md)) as (b2 & Hb2 & Hbal2).
    erewrite (bind_run _ _ _ _ (Pair false Insufficient_funds_for_collateral)); cycle 1.
    { unfold generate_claim.check_and_lock_funds.
      rewrite (bind_run _ _ _ _ _ (in_bank_run _ (mkWorld b c u o) _ _ Hb1)).
      destruct (Z.ltb_spec (balance_of b (msg_sender md)) settings.COLLATERAL_AMOUNT);
        [|lia].
      rewrite (bind_run _ _ _ _ _ (in_bank_run _ (mkWorld _ _ _ _) _ _ Hb2)).
      reflexivity. }
    rewrite bind_unpack_pair. cbn [negb]. run_pure.
    repeat split; try reflexivity. intros a. rewrite Hbal2, Hbal1. reflexivity.
Qed.

(** ** What the triggers never do *)

(** X20. In no state is a Claim or a Dispute trigger answered [True],
    and every Finalize and every Validate trigger ends in an exception. *)
Theorem arbitration_triggers_never_succeed lib now md w :
  (forall p, (handle lib (OpenClaim now md p) w).2 <> Ok true)
  /\ (forall p, (handle lib (Dispute now md p) w).2 <> Ok true)
  /\ (forall p, exists e, (handle lib (Finalize now md p) w).2 = Raise e)
  /\ (forall p, exists e, (handle lib (Validate now md p) w).2 = Raise e).
Proof.
  split; [|split; [|split]]; intros p; simpl.
  - destruct (handle_claim_cases now md p w) as (b & o & _ & [-> | ->] & _); discriminate.
  - destruct (handle_dispute_eq now md p w) as (w' & _ & _ & ->).
    destruct (_ <? _); [discriminate|].
    destruct (negb _); [discriminate|].
    destruct (claim_of w (di_claimID p)); discriminate.
  - rewrite handle_finalize_eq.
    destruct (_ && _); [eexists; reflexivity|].
    destruct (claim_of w (fi_claimID p)); [|eexists; reflexivity].
    destruct (_ || _); eexists; reflexivity.
  - rewrite handle_validate_eq.
    destruct (_ || _); [eexists; reflexivity|].
    destruct (claim_of w (vi_claimID p)); [|eexists; reflexivity].
    destruct (_ || _); eexists; reflexivity.
Qed.

Lemma in_bank_keeps_users {A} (P : UsersDatabase -> Prop) (c : M BankDatabase A) :
  preserves (fun w => P (usersdb w)) (in_bank c).
Proof. intros w Hw. unfold in_bank, zoom. destruct (c (bank w)); exact Hw. Qed.

Lemma emit_keeps_users (P : UsersDatabase -> Prop) o :
  preserves (fun w => P (usersdb w)) (emit o).
Proof. intros w Hw. exact Hw. Qed.

Lemma get_user_keeps_users (P : UsersDatabase -> Prop) user_id :
  preserves (fun w => P (usersdb w)) (in_users (users_db.get_user user_id)).
Proof. intros w Hw. exact Hw. Qed.

(** Every record of the users database is as [create_user] makes it. *)
Lemma create_user_fresh user_id :
  preserves (fun w => all_fresh (usersdb w)) (in_users (users_db.create_user user_id)).
Proof.
  intros w Hw u user. unfold in_users, zoom, users_db.create_user, modify, mbind, M_bind.
  simpl. rewrite lookup_insert. case_decide; [intros [= <-]; reflexivity | apply Hw].
Qed.

Lemma handle_keeps_fresh lib t : preserves (fun w => all_fresh (usersdb w)) (handle lib t).
Proof.
  destruct t as [md d|md p|now md p|now md p|now md p|now md p]; simpl.
  - unfold register_deposit.default_handler,
      register_deposit.process_deposit_and_add_user.
    preserve_with
      ltac:(first [ apply in_bank_keeps_users | apply emit_keeps_users
                  | apply get_user_keeps_users | apply create_user_fresh ]).
  - unfold withdraw.withdraw.
    preserve_with ltac:(first [ apply in_bank_keeps_users | apply emit_keeps_users ]).
  - intros w Hw. destruct (handle_claim_cases now md p w) as (b & o & -> & _ & _). exact Hw.
  - intros w Hw. destruct (handle_dispute_eq now md p w) as (w' & Hun & _ & ->).
    destruct Hun as (_ & _ & Hu).
    destruct (_ <? _); [simpl; rewrite Hu; exact Hw|].
    destruct (negb _); [simpl; rewrite Hu; exact Hw|].
    destruct (claim_of w (di_claimID p)); simpl; rewrite Hu; exact Hw.
  - intros w Hw. rewrite handle_finalize_eq.
    destruct (_ && _); [exact Hw|].
    destruct (claim_of w (fi_claimID p)); [|exact Hw].
    destruct (_ || _); exact Hw.
  - intros w Hw. rewrite handle_validate_eq.
    destruct (_ || _); [exact Hw|].
    destruct (claim_of w (vi_claimID p)); [|exact Hw].
    destruct (_ || _); exact Hw.
Qed.

Lemma run_keeps_fresh lib ts w :
  all_fresh (usersdb w) -> all_fresh (usersdb (run lib w ts)).
Proof.
  revert w. induction ts as [|t ts IH]; intros w Hw; simpl; [exact Hw|].
  apply IH. apply (handle_keeps_fresh lib t w Hw).
Qed.

(** X21. After any sequence of triggers on a fresh process the registry
    is empty, with 1 as its next id, and every user record is as
    [create_user] made it: empty open sets and counters at zero. *)
Theorem triggers_record_nothing lib ts :
  let w := run lib init ts in
  claimsdb w = mkClaims [] 1
  /\ forall user_id user,
       user_of w user_id = Some user -> user = mkUser ∅ ∅ 0 0 0 0.
Proof.
  intros w. subst w. split; [apply (run_keeps_registry lib ts init)|].
  apply (run_keeps_fresh lib ts init).
  intros u user H. simpl in H. rewrite lookup_empty in H. discriminate H.
Qed.

(** ** The locked pool *)

(** What a deposit, a withdrawal and a transfer show of the balances,
    whether they return or raise. *)
Lemma deposit_grows db address amount a :
  balance_of db a <= balance_of (bank_db.deposit address amount db).1 a.
Proof.
  destruct (Z.le_gt_cases amount 0) as [Hle|Hpos].
  - unfold bank_db.deposit. destruct (Z.leb_spec amount 0); [simpl; lia|lia].
  - destruct address as [who|].
    + destruct (deposit_observed db who amount) as [_ H]; [lia|].
      rewrite H. case_decide; lia.
    + unfold bank_db.deposit. destruct (Z.leb_spec amount 0); simpl; lia.
Qed.

Lemma withdraw_elsewhere db who amount a :
  lower a <> lower who ->
  balance_of (bank_db.withdraw (Some who) amount db).1 a = balance_of db a.
Proof.
  intros Hne. destruct (Z.le_gt_cases amount 0) as [Hle|Hpos].
  - unfold bank_db.withdraw. destruct (Z.leb_spec amount 0); [reflexivity|lia].
  - destruct (Z.lt_ge_cases (balance_of db who) amount) as [Hlt|Hge].
    + apply (withdraw_insufficient db who amount); [lia | exact Hlt].
    + destruct (withdraw_observed db who amount) as [_ H]; [lia|].
      rewrite H, decide_False by exact Hne. reflexivity.
Qed.

Lemma transfer_grows_receiver db sender receiver amount :
  balance_of db receiver
  <= balance_of (bank_db.transfer (Some sender) (Some receiver) amount db).1 receiver.
Proof.
  destruct (Z.le_gt_cases amount 0) as [Hle|Hpos].
  - unfold bank_db.transfer. destruct (Z.leb_spec amount 0); [simpl; lia|lia].
  - destruct (Z.lt_ge_cases (balance_of db sender) amount) as [Hlt|Hge].
    + destruct (withdraw_insufficient db sender amount) as [H1 H2]; [lia|exact Hlt|].
      unfold bank_db.transfer. destruct (Z.leb_spec amount 0); [lia|].
      rewrite (bind_err _ _ _ _ H1). cbn [fst]. rewrite H2. lia.
    + destruct (transfer_cases db sender receiver amount) as (db' & -> & H); [lia|].
      cbn [fst]. rewrite H, (decide_True (P := lower receiver = lower receiver))
        by reflexivity.
      case_decide; lia.
Qed.

Lemma bank_in_bank {A} (c : M BankDatabase A) w : bank (in_bank c w).1 = (c (bank w)).1.
Proof. unfold in_bank, zoom. destruct (c (bank w)). reflexivity. Qed.

Lemma check_and_lock_funds_grows_pool w user_wallet_address :
  balance_in w settings.LOCKED_ASSET_ADDRESS
  <= balance_of (bank (generate_claim.check_and_lock_funds user_wallet_address w).1)
       settings.LOCKED_ASSET_ADDRESS.
Proof.
  destruct w as [b c u o]. unfold balance_in. cbn [bank].
  destruct (balance_read b user_wallet_address) as (b1 & Hb1 & Hbal1).
  unfold generate_claim.check_and_lock_funds.
  rewrite (bind_run _ _ _ _ _ (in_bank_run _ (mkWorld b c u o) _ _ Hb1)).
  destruct (balance_of b user_wallet_address <? settings.COLLATERAL_AMOUNT).
  - destruct (balance_read b1 user_wallet_address) as (b2 & Hb2 & Hbal2).
    rewrite (bind_run _ _ _ _ _ (in_bank_run _ (mkWorld _ _ _ _) _ _ Hb2)).
    cbn [fst bank]. rewrite Hbal2, Hbal1. lia.
  - unfold try_except.
    pose proof (transfer_grows_receiver b1 user_wallet_address
                  settings.LOCKED_ASSET_ADDRESS settings.COLLATERAL_AMOUNT) as Hgrow.
    destruct (bank_db.transfer (Some user_wallet_address)
                (Some settings.LOCKED_ASSET_ADDRESS) settings.COLLATERAL_AMOUNT b1)
      as [b2 [[]|e]] eqn:Etr; cbn [fst] in Hgrow.
    + rewrite (bind_run _ _ _ _ _ (in_bank_run _ (mkWorld _ _ _ _) _ _ Etr)).
      cbn [fst bank]. rewrite <- Hbal1. exact Hgrow.
    + rewrite (bind_raise _ _ _ _ _ (in_bank_run _ (mkWorld _ _ _ _) _ _ Etr)).
      cbn [fst bank]. rewrite <- Hbal1. exact Hgrow.
Qed.

Lemma in_bank_holds {A} (n : Z) (c : M BankDatabase A) :
  (forall db, balance_of db settings.LOCKED_ASSET_ADDRESS
              <= balance_of (c db).1 settings.LOCKED_ASSET_ADDRESS) ->
  preserves (fun w => n <= balance_in w settings.LOCKED_ASSET_ADDRESS) (in_bank c).
Proof.
  intros Hc w Hw. unfold balance_in in *. rewrite bank_in_bank.
  specialize (Hc (bank w)). lia.
Qed.

Lemma in_users_holds {A} (n : Z) (c : M UsersDatabase A) :
  preserves (fun w => n <= balance_in w settings.LOCKED_ASSET_ADDRESS) (in_users c).
Proof. intros w Hw. unfold in_users, zoom. destruct (c (usersdb w)); exact Hw. Qed.

Lemma emit_holds (n : Z) o :
  preserves (fun w => n <= balance_in w settings.LOCKED_ASSET_ADDRESS) (emit o).
Proof. intros w Hw. exact Hw. Qed.

Lemma balance_holds db address :
  balance_of db settings.LOCKED_ASSET_ADDRESS
  <= balance_of (bank_db.balance (Some address) db).1 settings.LOCKED_ASSET_ADDRESS.
Proof. destruct (balance_read db address) as (db' & -> & H). cbn [fst]. rewrite H. lia. Qed.

Lemma handle_holds_pool lib t n :
  ~ pool_withdrawal t ->
  preserves (fun w => n <= balance_in w settings.LOCKED_ASSET_ADDRESS) (handle lib t).
Proof.
  intros Hfrom.
  destruct t as [md d|md p|now md p|now md p|now md p|now md p]; simpl.
  - unfold register_deposit.default_handler,
      register_deposit.process_deposit_and_add_user.
    preserve_with
      ltac:(first [ apply in_users_holds | apply emit_holds
                  | apply in_bank_holds; intros db;
                    first [ apply deposit_grows | apply balance_holds ] ]).
  - unfold withdraw.withdraw.
    preserve_with
      ltac:(first [ apply emit_holds
                  | apply in_bank_holds; intros db;
                    first [ apply balance_holds
                          | rewrite withdraw_elsewhere;
                            [lia | intros Heq; apply Hfrom; symmetry; exact Heq] ] ]).
  - intros w Hw.
    destruct (handle_claim_cases now md p w) as (b & o & -> & _ & [-> | ->]).
    + exact Hw.
    + unfold balance_in at 1. cbn [bank].
      pose proof (check_and_lock_funds_grows_pool w (msg_sender md)). lia.
  - intros w Hw. destruct (handle_dispute_eq now md p w) as (w' & Hun & _ & ->).
    destruct Hun as (Hb & _ & _).
    assert (Hw' : n <= balance_in w' settings.LOCKED_ASSET_ADDRESS)
      by (rewrite Hb; exact Hw).
    destruct (_ <? _); [exact Hw'|].
    destruct (negb _); [exact Hw'|].
    destruct (claim_of w (di_claimID p)); exact Hw'.
  - intros w Hw. rewrite handle_finalize_eq.
    destruct (_ && _); [exact Hw|].
    destruct (claim_of w (fi_claimID p)); [|exact Hw].
    destruct (_ || _); exact Hw.
  - intros w Hw. rewrite handle_validate_eq.
    destruct (_ || _); [exact Hw|].
    destruct (claim_of w (vi_claimID p)); [|exact Hw].
    destruct (_ || _); exact Hw.
Qed.

(** X22. No sequence of triggers lowers the balance of the locked pool,
    unless a withdrawal is sent from the pool's own address: what the claim
    route locks stays locked. *)
Theorem pool_never_pays_out lib ts w :
  Forall (fun t => ~ pool_withdrawal t) ts ->
  balance_in w settings.LOCKED_ASSET_ADDRESS
  <= balance_in (run lib w ts) settings.LOCKED_ASSET_ADDRESS.
Proof.
  intros Hts. revert w. induction Hts as [|t ts Ht _ IH]; intros w; simpl; [lia|].
  etransitivity; [|apply IH].
  apply (handle_holds_pool lib t _ Ht w). lia.
Qed.

Lemma pool_never_pays_out_witness :
  balance_in init settings.LOCKED_ASSET_ADDRESS
  <= balance_in
       (run scenario_library init
          [deposit_of alice settings.COLLATERAL_AMOUNT; open_claim_of 0 0 "p1";
           finalize_at 30 30 1 "p1";
           Withdraw (mkMetadata alice 31) (mkWithdrawInput settings.COLLATERAL_AMOUNT)])
       settings.LOCKED_ASSET_ADDRESS.
Proof.
  apply pool_never_pays_out.
  repeat (constructor; [vm_compute; first [tauto | discriminate]|]). constructor.
Defined.

(** ** Hexadecimal texts and the deposit payload *)

Lemma fromhex_hex_byte b s :
  utils.fromhex (utils.hex [b] +:+ s)
  = match utils.fromhex s with Ok rest => Ok (b :: rest) | Raise e => Raise e end.
Proof. destruct b; reflexivity. Qed.

Lemma hex2bin_bin2hex binary : utils.hex2bin (utils.bin2hex binary) = Ok binary.
Proof.
  unfold utils.hex2bin, utils.bin2hex. change (utils.drop2 ("0x" +:+ ?s)) with s.
  induction binary as [|b rest IH]; [reflexivity|].
  change (utils.hex (b :: rest)) with (utils.hex [b] +:+ utils.hex rest).
  rewrite fromhex_hex_byte, IH. reflexivity.
Qed.

(** X23. [hex2bin] inverts [bin2hex]; it turns the text of [str2hex]
    back into the bytes of the string; and it drops the first two
    characters of its argument whatever they are. *)
Theorem hex_round_trip binary :
  utils.hex2bin (utils.bin2hex binary) = Ok binary
  /\ (forall s, utils.hex2bin (utils.str2hex s) = Ok (utils.encode s))
  /\ (forall c1 c2, utils.hex2bin (String c1 (String c2 (utils.hex binary))) = Ok binary).
Proof.
  split; [apply hex2bin_bin2hex|]. split.
  - intros s. apply (hex2bin_bin2hex (utils.encode s)).
  - intros c1 c2. apply (hex2bin_bin2hex binary).
Qed.

Lemma from_bytes_acc (l : list Byte.byte) acc :
  fold_left (fun acc b => 256 * acc + Z.of_N (Byte.to_N b)) l acc
  = acc * 256 ^ Z.of_nat (length l) + utils.from_bytes l.
Proof.
  unfold utils.from_bytes. revert acc. induction l as [|b l IH]; intros acc.
  - simpl. lia.
  - cbn [fold_left length]. rewrite IH, (IH (256 * 0 + _)).
    rewrite Nat2Z.inj_succ, Z.pow_succ_r by lia. lia.
Qed.

Lemma byte_to_N_bound b : (0 <= Z.of_N (Byte.to_N b) < 256).
Proof. pose proof (Byte.to_N_bounded b). lia. Qed.

Lemma from_bytes_bound (l : list Byte.byte) :
  0 <= utils.from_bytes l < 256 ^ Z.of_nat (length l).
Proof.
  induction l as [|b l IH].
  - cbn. lia.
  - unfold utils.from_bytes. cbn [fold_left]. rewrite from_bytes_acc.
    cbn [length]. rewrite Nat2Z.inj_succ, Z.pow_succ_r by lia.
    pose proof (byte_to_N_bound b). nia.
Qed.

(** X24. On a payload made of a header byte, 20 bytes of token address,
    20 bytes of depositor address, 32 bytes of amount and any further data,
    [decode_erc20_deposit] returns the two addresses in hexadecimal, the
    amount as a big-endian number and the further data. *)
Theorem decode_erc20_deposit_fields (header : Byte.byte)
    (token depositor amount data : list Byte.byte) :
  length token = 20%nat -> length depositor = 20%nat -> length amount = 32%nat ->
  utils.decode_erc20_deposit (header :: token ++ depositor ++ amount ++ data)
  = (mkErc20Deposit (utils.bin2hex depositor) (utils.bin2hex token)
       (utils.from_bytes amount), data).
Proof.
  intros Ht Hd Ha. unfold utils.decode_erc20_deposit, utils.slice. cbv zeta.
  set (binary := header :: token ++ depositor ++ amount ++ data).
  assert (E1 : drop 1 binary = token ++ depositor ++ amount ++ data) by reflexivity.
  assert (E21 : drop 21 binary = depositor ++ amount ++ data).
  { change 21%nat with (1 + 20)%nat. rewrite <- drop_drop, E1.
    apply drop_app_length'. symmetry. exact Ht. }
  assert (E41 : drop 41 binary = amount ++ data).
  { change 41%nat with (21 + 20)%nat. rewrite <- drop_drop, E21.
    apply drop_app_length'. symmetry. exact Hd. }
  assert (E73 : drop 73 binary = data).
  { change 73%nat with (41 + 32)%nat. rewrite <- drop_drop, E41.
    apply drop_app_length'. symmetry. exact Ha. }
  rewrite E1, E21, E41, E73.
  rewrite !take_app_length' by (symmetry; assumption). reflexivity.
Qed.

Lemma decode_erc20_deposit_fields_witness :
  utils.decode_erc20_deposit
    (Byte.x01 :: repeat Byte.x11 20 ++ repeat Byte.x22 20
       ++ (repeat Byte.x00 31 ++ [Byte.x07]) ++ [Byte.xff])
  = (mkErc20Deposit (utils.bin2hex (repeat Byte.x22 20))
       (utils.bin2hex (repeat Byte.x11 20))
       (utils.from_bytes (repeat Byte.x00 31 ++ [Byte.x07])), [Byte.xff]).
Proof.
  exact (decode_erc20_deposit_fields Byte.x01 (repeat Byte.x11 20)
           (repeat Byte.x22 20) (repeat Byte.x00 31 ++ [Byte.x07]) [Byte.xff]
           eq_refl eq_refl eq_refl).
Defined.

Lemma decoded_amount_bound (binary : list Byte.byte) :
  0 <= amount (utils.decode_erc20_deposit binary).1 < 2 ^ 256.
Proof.
  unfold utils.decode_erc20_deposit. cbn [fst amount].
  pose proof (from_bytes_bound (utils.slice 41 73 binary)) as H.
  assert (Hlen : (length (utils.slice 41 73 binary) <= 32)%nat).
  { unfold utils.slice. rewrite length_take. lia. }
  assert (256 ^ Z.of_nat (length (utils.slice 41 73 binary)) <= 256 ^ 32).
  { apply Z.pow_le_mono_r; lia. }
  change (2 ^ 256) with (256 ^ 32). lia.
Qed.

Lemma lower_app s1 s2 : lower (s1 +:+ s2) = lower s1 +:+ lower s2.
Proof. induction s1 as [|c s1 IH]; simpl; [reflexivity | rewrite IH; reflexivity]. Qed.

Lemma lower_hex binary : lower (utils.hex binary) = utils.hex binary.
Proof.
  induction binary as [|b rest IH]; [reflexivity|].
  change (utils.hex (b :: rest)) with (utils.hex [b] +:+ utils.hex rest).
  rewrite lower_app, IH. f_equal. destruct b; reflexivity.
Qed.

(** X25. Whatever the payload, short ones included, the decoded amount
    is an unsigned 256-bit number and the two decoded addresses are in
    lower case, as the ledger keys them. *)
Theorem decoded_deposit_is_canonical (binary : list Byte.byte) :
  let d := (utils.decode_erc20_deposit binary).1 in
  0 <= amount d < 2 ^ 256
  /\ lower (depositor d) = depositor d
  /\ lower (token_address d) = token_address d.
Proof.
  intros d. subst d. split; [apply decoded_amount_bound|].
  unfold utils.decode_erc20_deposit, utils.bin2hex. cbn [fst depositor token_address].
  split; rewrite lower_app, lower_hex; reflexivity.
Qed.
